(** * SecureVote camera script (static/js/camera.js)

    A shallow embedding of the browser script that drives the face
    capture pages: one global stream slot, a camera start/stop pair, a
    frame grabber and three submit flows (registration, vote
    verification, login).

    The script is effectful JavaScript.  It is embedded as a state and
    exception monad over a [World] that holds the three DOM elements the
    script looks up, the global [streamRef], the heap of media streams
    (streams are objects shared between [streamRef] and
    [video.srcObject]), the pending timers, the page location and the
    trace of effects that leave the script (console, device, network,
    timers, navigation).

    Every [await] of the source is resolved by an outcome passed as an
    argument ([GumOutcome], [PlayOutcome], [FetchOutcome]): an async
    function is run from its call to its completion with the outcomes
    the platform delivers, without interleaving other event-loop
    tasks. *)

From stdpp Require Import base strings list pretty.
From Stdlib Require Import NArith ZArith Lia.

Local Open Scope string_scope.
Local Open Scope list_scope.
Local Set Warnings "-register-all".

(** ** JavaScript values read by the script *)

Module Js.

(** What [response.json()] resolves to.  Numbers are the integral
    ones, printed in decimal as JavaScript prints them below 10^21;
    the script only tests a number for truthiness or prints it. *)
Inductive json : Type :=
| JNull
| JBool (b : bool)
| JNum (z : Z)
| JStr (s : string)
| JArr (xs : list json)
| JObj (fields : list (string * json)).

(** A thrown value: the script reads [error.message] and passes the
    value to [console.error]. *)
Record JsError : Type := mkError { err_name : string; message : string }.

Definition TypeError (msg : string) : JsError := mkError "TypeError" msg.

(** Completion of an evaluation: a value or a throw. *)
Inductive Completion (A : Type) : Type :=
| Normal (a : A)
| Throw (e : JsError).
Arguments Normal {A} a.
Arguments Throw {A} e.

(** The two properties the script reads from the parsed body. *)
Inductive Field : Type := F_ok | F_error.

Definition field_key (f : Field) : string :=
  match f with F_ok => "ok" | F_error => "error" end.

(** [JSON.parse] keeps the last of several bindings of one key. *)
Definition own_property (key : string) (fields : list (string * json)) : option json :=
  fold_left (fun acc kv => if String.eqb (fst kv) key then Some (snd kv) else acc)
            fields None.

(** [data.ok] and [data.error]: [None] is [undefined].  Reading a
    property of [null] throws; strings, numbers, booleans and arrays
    have neither property. *)
Definition get_prop (data : json) (f : Field) : Completion (option json) :=
  match data with
  | JNull =>
      Throw (TypeError ("Cannot read properties of null (reading '" +:+ field_key f +:+ "')"))
  | JObj fields => Normal (own_property (field_key f) fields)
  | _ => Normal None
  end.

(** ToBoolean. *)
Definition truthy (v : option json) : bool :=
  match v with
  | None => false
  | Some JNull => false
  | Some (JBool b) => b
  | Some (JNum z) => negb (Z.eqb z 0)
  | Some (JStr s) => negb (String.eqb s EmptyString)
  | Some (JArr _) => true
  | Some (JObj _) => true
  end.

(** [a || b] with a string literal on the right. *)
Definition or_else (v : option json) (fallback : string) : json :=
  match v with
  | Some x => if truthy v then x else JStr fallback
  | None => JStr fallback
  end.

Fixpoint join_completions (parts : list (option string)) : option string :=
  match parts with
  | [] => Some EmptyString
  | [p] => p
  | p :: rest =>
      match p, join_completions rest with
      | Some s, Some r => Some (s +:+ "," +:+ r)
      | _, _ => None
      end
  end.

(** ToString of a parsed value, [None] for a TypeError.  An object
    prints as [[object Object]] unless it has an own [toString]
    property: a parsed property is never callable, and
    [Object.prototype.valueOf] returns the object itself, so no
    primitive is found.  An array is joined with commas, [null]
    elements printing as the empty string. *)
Fixpoint to_string (v : json) : option string :=
  match v with
  | JNull => Some "null"
  | JBool true => Some "true"
  | JBool false => Some "false"
  | JNum z => Some (pretty z)
  | JStr s => Some s
  | JArr xs =>
      join_completions
        (map (fun x => match x with JNull => Some EmptyString | _ => to_string x end) xs)
  | JObj fields =>
      match own_property "toString" fields with
      | Some _ => None
      | None => Some "[object Object]"
      end
  end.

(** [prefix + v] for a string [prefix]. *)
Definition concat (prefix : string) (v : json) : Completion string :=
  match to_string v with
  | Some s => Normal (prefix +:+ s)
  | None => Throw (TypeError "Cannot convert object to primitive value")
  end.

(** [!image] for the result of [captureImageBase64]: [null] and the
    empty string are falsy. *)
Definition falsy_image (image : option string) : bool :=
  match image with
  | None => true
  | Some s => String.eqb s EmptyString
  end.

End Js.
Export Js.

(** ** The page and the platform *)

Inductive ReadyState : Type := Live | Ended.

Record MediaStreamTrack : Type := mkTrack { label : string; readyState : ReadyState }.

(** A media stream is the list of its tracks; streams live in a heap and
    are referred to by their index. *)
Abbreviation MediaStream := (list MediaStreamTrack) (only parsing).

Record Video : Type := mkVideo {
  videoWidth : N;
  videoHeight : N;
  srcObject : option nat;
  paused : bool
}.

(** [context2d] tells whether [getContext("2d")] returns a context;
    [drawn] is the destination size of the last [drawImage] since the
    bitmap was last reset. *)
Record Canvas : Type := mkCanvas {
  width : N;
  height : N;
  context2d : bool;
  drawn : option (N * N)
}.

Inductive MediaDevices : Type :=
| NoMediaDevices          (* navigator.mediaDevices is undefined *)
| NoGetUserMedia          (* mediaDevices without getUserMedia *)
| HasGetUserMedia.

Inductive Callback : Type :=
| Redirect (url : string).   (* () => window.location.href = url *)

Inductive Logged : Type :=
| LogText (s : string)
| LogError (e : JsError).

Record Request : Type := mkRequest {
  url : string;
  method : string;
  content_type : string;
  body : json
}.

Inductive Event : Type :=
| EConsoleError (payload : Logged)
| EGetUserMedia (facingMode : string) (audio : bool)
| ETrackEnded (stream : nat) (index : nat)
| EFetch (req : Request)
| ESetTimeout (delay : N) (cb : Callback)
| ENavigate (target : string).

Record World : Type := mkWorld {
  video : option Video;            (* document.getElementById("video") *)
  canvas : option Canvas;          (* document.getElementById("canvas") *)
  status : option string;          (* textContent of #status, if present *)
  mediaDevices : MediaDevices;
  streamRef : option nat;          (* let streamRef = null *)
  streams : list MediaStream;
  timers : list (N * Callback);
  location : string;
  trace : list Event
}.

(** Outcomes of the awaited platform calls. *)
Inductive GumOutcome : Type :=
| GumResolve (tracks : list MediaStreamTrack)
| GumReject (e : JsError).

Inductive PlayOutcome : Type :=
| PlayResolve
| PlayReject (e : JsError).

Inductive BodyOutcome : Type :=
| BodyJson (data : json)
| BodyReject (e : JsError).      (* response.json() rejects *)

Inductive FetchOutcome : Type :=
| FetchResolve (http_status : N) (parsed : BodyOutcome)
| FetchReject (e : JsError).

Record Response : Type := mkResponse { http_status_of : N; parsed_of : BodyOutcome }.

(** [response.ok]: the status is in the range 200-299. *)
Definition response_ok (r : Response) : bool :=
  (200 <=? http_status_of r)%N && (http_status_of r <=? 299)%N.

(** ** Field updates *)

Definition with_video (v : option Video) (w : World) : World :=
  mkWorld v (canvas w) (status w) (mediaDevices w) (streamRef w) (streams w)
          (timers w) (location w) (trace w).

Definition with_canvas (c : option Canvas) (w : World) : World :=
  mkWorld (video w) c (status w) (mediaDevices w) (streamRef w) (streams w)
          (timers w) (location w) (trace w).

Definition with_status (s : option string) (w : World) : World :=
  mkWorld (video w) (canvas w) s (mediaDevices w) (streamRef w) (streams w)
          (timers w) (location w) (trace w).

Definition with_streamRef (r : option nat) (w : World) : World :=
  mkWorld (video w) (canvas w) (status w) (mediaDevices w) r (streams w)
          (timers w) (location w) (trace w).

Definition with_streams (h : list MediaStream) (w : World) : World :=
  mkWorld (video w) (canvas w) (status w) (mediaDevices w) (streamRef w) h
          (timers w) (location w) (trace w).

Definition with_timers (t : list (N * Callback)) (w : World) : World :=
  mkWorld (video w) (canvas w) (status w) (mediaDevices w) (streamRef w) (streams w)
          t (location w) (trace w).

Definition with_location (l : string) (w : World) : World :=
  mkWorld (video w) (canvas w) (status w) (mediaDevices w) (streamRef w) (streams w)
          (timers w) l (trace w).

Definition emit (evs : list Event) (w : World) : World :=
  mkWorld (video w) (canvas w) (status w) (mediaDevices w) (streamRef w) (streams w)
          (timers w) (location w) (trace w ++ evs).

(** ** The script monad *)

Definition M (A : Type) : Type := World -> Completion A * World.

Definition ret {A} (a : A) : M A := fun w => (Normal a, w).

Definition throw {A} (e : JsError) : M A := fun w => (Throw e, w).

Definition bind {A B} (m : M A) (k : A -> M B) : M B :=
  fun w =>
    match m w with
    | (Normal a, w') => k a w'
    | (Throw e, w') => (Throw e, w')
    end.

(** [try { body } catch (err) { handler }] *)
Definition try_catch {A} (body : M A) (handler : JsError -> M A) : M A :=
  fun w =>
    match body w with
    | (Normal a, w') => (Normal a, w')
    | (Throw e, w') => handler e w'
    end.

Definition lift {A} (c : Completion A) : M A := fun w => (c, w).

Definition modify (f : World -> World) : M unit := fun w => (Normal tt, f w).

Definition exec {A} (m : M A) (w : World) : World := snd (m w).

Definition result {A} (m : M A) (w : World) : Completion A := fst (m w).

Declare Scope js_scope.
Delimit Scope js_scope with js.
Notation "x <- c ;; k" := (bind c (fun x => k))
  (at level 100, c at next level, right associativity) : js_scope.
Notation "c ;;; k" := (bind c (fun _ => k))
  (at level 100, right associativity) : js_scope.
Local Open Scope js_scope.

(** ** Platform primitives *)

(** [console.error(x)] *)
Definition console_error (x : Logged) : M unit :=
  modify (emit [EConsoleError x]).

(** [if (status) status.textContent = ...]: the right-hand side is only
    evaluated when the element exists. *)
Definition if_status (rhs : M string) : M unit :=
  fun w =>
    match status w with
    | None => (Normal tt, w)
    | Some _ => (text <- rhs ;; modify (with_status (Some text))) w
    end.

(** [track.stop()]: a track that has ended is left alone; a live track
    ends and its source is released. *)
Definition track_stop (sid idx : nat) (t : MediaStreamTrack)
  : MediaStreamTrack * list Event :=
  match readyState t with
  | Ended => (t, [])
  | Live => (mkTrack (label t) Ended, [ETrackEnded sid idx])
  end.

(** [stream.getTracks().forEach(track => track.stop())], from track
    number [idx] on. *)
Fixpoint stop_each (sid idx : nat) (ts : list MediaStreamTrack)
  : list MediaStreamTrack * list Event :=
  match ts with
  | [] => ([], [])
  | t :: rest =>
      let '(t', ev) := track_stop sid idx t in
      let '(rest', evs) := stop_each sid (S idx) rest in
      (t' :: rest', ev ++ evs)
  end.

(** [navigator.mediaDevices.getUserMedia({video: {facingMode: "user"},
    audio: false})]: a resolved request allocates a new stream. *)
Definition getUserMedia (gum : GumOutcome) : M nat :=
  fun w =>
    let w1 := emit [EGetUserMedia "user" false] w in
    match gum with
    | GumResolve tracks =>
        (Normal (length (streams w1)), with_streams (streams w1 ++ [tracks]) w1)
    | GumReject e => (Throw e, w1)
    end.

(** [video.srcObject = stream] *)
Definition set_srcObject (stream : option nat) : M unit :=
  modify (fun w =>
    match video w with
    | Some v => with_video (Some (mkVideo (videoWidth v) (videoHeight v) stream (paused v))) w
    | None => w
    end).

(** [await video.play()] *)
Definition video_play (play : PlayOutcome) : M unit :=
  match play with
  | PlayResolve =>
      modify (fun w =>
        match video w with
        | Some v => with_video (Some (mkVideo (videoWidth v) (videoHeight v) (srcObject v) false)) w
        | None => w
        end)
  | PlayReject e => throw e
  end.

(** [fetch(url, {method: "POST", headers: {"Content-Type":
    "application/json"}, body: JSON.stringify({image: image})})] *)
Definition fetch (endpoint : string) (image : string) (net : FetchOutcome) : M Response :=
  fun w =>
    let w1 := emit [EFetch (mkRequest endpoint "POST" "application/json"
                                      (JObj [("image", JStr image)]))] w in
    match net with
    | FetchResolve st parsed => (Normal (mkResponse st parsed), w1)
    | FetchReject e => (Throw e, w1)
    end.

(** [await response.json()] *)
Definition response_json (r : Response) : M json :=
  match parsed_of r with
  | BodyJson data => ret data
  | BodyReject e => throw e
  end.

(** [setTimeout(cb, delay)] *)
Definition setTimeout (cb : Callback) (delay : N) : M unit :=
  modify (fun w => emit [ESetTimeout delay cb] (with_timers (timers w ++ [(delay, cb)]) w)).

(** The event loop runs a timer callback. *)
Definition run_callback (cb : Callback) (w : World) : World :=
  match cb with
  | Redirect target => emit [ENavigate target] (with_location target w)
  end.

(** The pending timer number [i] fires. *)
Definition fire (i : nat) (w : World) : World :=
  match timers w !! i with
  | Some (_, cb) => run_callback cb (with_timers (delete i (timers w)) w)
  | None => w
  end.

(** ** The script *)

(** [async function startCamera()] *)
Definition startCamera (gum : GumOutcome) (play : PlayOutcome) : M unit :=
  fun w =>
    match video w with
    | None => console_error (LogText "Video element not found.") w
    | Some _ =>
        match mediaDevices w with
        | NoMediaDevices | NoGetUserMedia =>
            if_status (ret "Camera not supported in this browser.") w
        | HasGetUserMedia =>
            try_catch
              (stream <- getUserMedia gum ;;
               modify (with_streamRef (Some stream)) ;;;
               set_srcObject (Some stream) ;;;
               video_play play ;;;
               if_status (ret "✅ Camera started successfully."))
              (fun error =>
                 console_error (LogError error) ;;;
                 if_status (ret ("❌ Camera error: " +:+ message error)))
              w
        end
    end.

(** [function stopCamera()].  A slot that refers to no stream of the
    heap has no tracks to visit. *)
Definition stopCamera : M unit :=
  fun w =>
    match streamRef w with
    | None => (Normal tt, w)
    | Some sid =>
        match streams w !! sid with
        | None => (Normal tt, w)
        | Some ts =>
            let '(ts', evs) := stop_each sid 0 ts in
            (Normal tt, emit evs (with_streams (<[sid := ts']> (streams w)) w))
        end
    end.

(** [function captureImageBase64()]; [jpeg] is what
    [canvas.toDataURL("image/jpeg", 0.9)] returns. *)
Definition captureImageBase64 (jpeg : string) : M (option string) :=
  fun w =>
    match video w, canvas w with
    | Some v, Some c =>
        let width := videoWidth v in
        let height := videoHeight v in
        if (width =? 0)%N || (height =? 0)%N then (Normal None, w)
        else
          (* canvas.width = width; canvas.height = height *)
          let c1 := mkCanvas width height (context2d c) None in
          if context2d c then
            (* ctx.drawImage(video, 0, 0, width, height) *)
            let c2 := mkCanvas width height true (Some (width, height)) in
            (Normal (Some jpeg), with_canvas (Some c2) w)
          else
            (Throw (TypeError "Cannot read properties of null (reading 'drawImage')"),
             with_canvas (Some c1) w)
    | _, _ => (Normal None, w)
    end.

(** [async function captureAndRegister()] *)
Definition captureAndRegister (jpeg : string) (net : FetchOutcome) : M unit :=
  image <- captureImageBase64 jpeg ;;
  if falsy_image image then
    if_status (ret "⚠ Please start camera first.")
  else
    if_status (ret "Uploading face for registration...") ;;;
    try_catch
      (response <- fetch "/api/register-face" (default EmptyString image) net ;;
       data <- response_json response ;;
       failed <- (if negb (response_ok response) then ret true
                  else ok <- lift (get_prop data F_ok) ;; ret (negb (truthy ok))) ;;
       if (failed : bool) then
         if_status (error <- lift (get_prop data F_error) ;;
                    lift (concat "❌ " (or_else error "Registration failed.")))
       else
         if_status (ret "✅ Registration successful! Redirecting...") ;;;
         stopCamera ;;;
         setTimeout (Redirect "/elections") 1200)
      (fun err =>
         console_error (LogError err) ;;;
         if_status (ret "❌ Server error during registration.")).

(** [async function captureAndVerifyVote()] *)
Definition captureAndVerifyVote (jpeg : string) (net : FetchOutcome) : M unit :=
  image <- captureImageBase64 jpeg ;;
  if falsy_image image then
    if_status (ret "⚠ Please start camera first.")
  else
    if_status (ret "Verifying face...") ;;;
    try_catch
      (response <- fetch "/api/vote-face-verify" (default EmptyString image) net ;;
       data <- response_json response ;;
       failed <- (if negb (response_ok response) then ret true
                  else ok <- lift (get_prop data F_ok) ;; ret (negb (truthy ok))) ;;
       if (failed : bool) then
         if_status (error <- lift (get_prop data F_error) ;;
                    lift (concat "❌ " (or_else error "Verification failed.")))
       else
         if_status (ret "✅ Face verified successfully!") ;;;
         stopCamera)
      (fun err =>
         console_error (LogError err) ;;;
         if_status (ret "❌ Server error during verification.")).

(** [async function captureAndLogin()] *)
Definition captureAndLogin (jpeg : string) (net : FetchOutcome) : M unit :=
  image <- captureImageBase64 jpeg ;;
  if falsy_image image then
    if_status (ret "⚠ Please start camera first.")
  else
    if_status (ret "Verifying face for login...") ;;;
    try_catch
      (response <- fetch "/api/login-face-verify" (default EmptyString image) net ;;
       data <- response_json response ;;
       failed <- (if negb (response_ok response) then ret true
                  else ok <- lift (get_prop data F_ok) ;; ret (negb (truthy ok))) ;;
       if (failed : bool) then
         if_status (error <- lift (get_prop data F_error) ;;
                    lift (concat "❌ " (or_else error "Login failed.")))
       else
         if_status (ret "✅ Login successful! Redirecting...") ;;;
         stopCamera ;;;
         setTimeout (Redirect "/elections") 1000)
      (fun err =>
         console_error (LogError err) ;;;
         if_status (ret "❌ Server error during login.")).

(** ** The three flows as one *)

Inductive Flow : Type := Register | VerifyVote | Login.

Definition run_flow (f : Flow) : string -> FetchOutcome -> M unit :=
  match f with
  | Register => captureAndRegister
  | VerifyVote => captureAndVerifyVote
  | Login => captureAndLogin
  end.

(** What differs between the flows: the endpoint, the texts and the
    delay of the redirect, if there is one. *)
Record Endpoint : Type := mkEndpoint {
  path : string;
  progress_text : string;
  fallback_text : string;
  success_text : string;
  server_error_text : string;
  redirect_delay : option N
}.

Definition endpoint (f : Flow) : Endpoint :=
  match f with
  | Register =>
      mkEndpoint "/api/register-face" "Uploading face for registration..."
                 "Registration failed." "✅ Registration successful! Redirecting..."
                 "❌ Server error during registration." (Some 1200%N)
  | VerifyVote =>
      mkEndpoint "/api/vote-face-verify" "Verifying face..."
                 "Verification failed." "✅ Face verified successfully!"
                 "❌ Server error during verification." None
  | Login =>
      mkEndpoint "/api/login-face-verify" "Verifying face for login..."
                 "Login failed." "✅ Login successful! Redirecting..."
                 "❌ Server error during login." (Some 1000%N)
  end.

Definition warning_text : string := "⚠ Please start camera first.".

Definition schedule_redirect (d : option N) : M unit :=
  match d with
  | Some delay => setTimeout (Redirect "/elections") delay
  | None => ret tt
  end.

(** The part of a flow after the response arrived. *)
Definition on_response (ep : Endpoint) (response : Response) : M unit :=
  data <- response_json response ;;
  failed <- (if negb (response_ok response) then ret true
             else ok <- lift (get_prop data F_ok) ;; ret (negb (truthy ok))) ;;
  if (failed : bool) then
    if_status (error <- lift (get_prop data F_error) ;;
               lift (concat "❌ " (or_else error (fallback_text ep))))
  else
    if_status (ret (success_text ep)) ;;;
    stopCamera ;;;
    schedule_redirect (redirect_delay ep).

Definition on_error (ep : Endpoint) (err : JsError) : M unit :=
  console_error (LogError err) ;;;
  if_status (ret (server_error_text ep)).

Definition submit (ep : Endpoint) (jpeg : string) (net : FetchOutcome) : M unit :=
  image <- captureImageBase64 jpeg ;;
  if falsy_image image then
    if_status (ret warning_text)
  else
    if_status (ret (progress_text ep)) ;;;
    try_catch
      (response <- fetch (path ep) (default EmptyString image) net ;;
       on_response ep response)
      (on_error ep).

(** ** Operations a page can trigger *)

Inductive Op : Type :=
| OpStart (gum : GumOutcome) (play : PlayOutcome)
| OpStop
| OpCapture (jpeg : string)
| OpSubmit (f : Flow) (jpeg : string) (net : FetchOutcome).

Definition run (op : Op) (w : World) : World :=
  match op with
  | OpStart gum play => exec (startCamera gum play) w
  | OpStop => exec stopCamera w
  | OpCapture jpeg => exec (captureImageBase64 jpeg) w
  | OpSubmit f jpeg net => exec (run_flow f jpeg net) w
  end.

(** The page as it loads: no stream held, nothing pending. *)
Definition page (v : option Video) (c : option Canvas) (s : option string)
    (md : MediaDevices) : World :=
  mkWorld v c s md None [] [] "/" [].

(** * Notions used in the statements *)

(** ** Worlds a run goes through *)

(** What [if (status) status.textContent = text] does to the page. *)
Definition write_status (text : string) (w : World) : World :=
  match status w with
  | Some _ => with_status (Some text) w
  | None => w
  end.

Definition all_ended (ts : list MediaStreamTrack) : Prop :=
  Forall (fun t => readyState t = Ended) ts.

(** [stopCamera] as a function on worlds. *)
Definition stopped (w : World) : World :=
  match streamRef w with
  | None => w
  | Some sid =>
      match streams w !! sid with
      | None => w
      | Some ts =>
          emit (snd (stop_each sid 0 ts))
               (with_streams (<[sid := fst (stop_each sid 0 ts)]> (streams w)) w)
      end
  end.

(** The events of a [stopCamera()] call in [w]. *)
Definition stop_events (w : World) : list Event :=
  match streamRef w with
  | Some sid =>
      match streams w !! sid with
      | Some ts => snd (stop_each sid 0 ts)
      | None => []
      end
  | None => []
  end.

Definition request (ep : Endpoint) (img : string) : Request :=
  mkRequest (path ep) "POST" "application/json" (JObj [("image", JStr img)]).

(** The world once the request has left: the frame is on the canvas,
    the progress text is shown, the request is on the trace. *)
Definition sent (ep : Endpoint) (jpeg img : string) (w : World) : World :=
  emit [EFetch (request ep img)]
       (write_status (progress_text ep) (exec (captureImageBase64 jpeg) w)).

(** The world in which an accepted flow calls [stopCamera()]. *)
Definition succeeded (ep : Endpoint) (jpeg img : string) (w : World) : World :=
  write_status (success_text ep) (sent ep jpeg img w).

(** [try { ... } catch (err) { ... }] of a flow, from the response on. *)
Definition handled (ep : Endpoint) (r : Response) : M unit :=
  try_catch (on_response ep r) (on_error ep).

(** ** Responses *)

(** The response has a 2xx status and a body whose [ok] is truthy. *)
Definition accepted (st : N) (data : json) : Prop :=
  response_ok (mkResponse st (BodyJson data)) = true /\
  exists ok, get_prop data F_ok = Normal ok /\ truthy ok = true.

(** Whether [on_response] takes its success branch. *)
Definition accepts (r : Response) : bool :=
  match parsed_of r with
  | BodyJson data =>
      response_ok r &&
      match get_prop data F_ok with
      | Normal ok => truthy ok
      | Throw _ => false
      end
  | BodyReject _ => false
  end.

(** [!response.ok || !data.ok] for an object body. *)
Definition rejected (st : N) (fields : list (string * json)) : bool :=
  negb (response_ok (mkResponse st (BodyJson (JObj fields))))
  || negb (truthy (own_property "ok" fields)).

(** The fallback texts of the three flows, as the source spells them. *)
Definition fallback (f : Flow) : string :=
  match f with
  | Register => "Registration failed."
  | VerifyVote => "Verification failed."
  | Login => "Login failed."
  end.

(** ** Failures of [startCamera] *)

(** The ways [startCamera()] fails once the video element is found. *)
Inductive Failure : Type :=
| ApiUnavailable
| AcquisitionRejected (e : JsError)                       (* getUserMedia rejects *)
| PlaybackRejected (tracks : MediaStream) (e : JsError).  (* video.play() rejects *)

Definition start_failure (w : World) (gum : GumOutcome) (play : PlayOutcome)
  : option Failure :=
  match mediaDevices w with
  | NoMediaDevices | NoGetUserMedia => Some ApiUnavailable
  | HasGetUserMedia =>
      match gum, play with
      | GumReject e, _ => Some (AcquisitionRejected e)
      | GumResolve tracks, PlayReject e => Some (PlaybackRejected tracks e)
      | GumResolve _, PlayResolve => None
      end
  end.

Definition failure_text (k : Failure) : string :=
  match k with
  | ApiUnavailable => "Camera not supported in this browser."
  | AcquisitionRejected e => "❌ Camera error: " +:+ message e
  | PlaybackRejected _ e => "❌ Camera error: " +:+ message e
  end.

(** The slot refers to a stream that the heap did not have before. *)
Definition holds_new_stream (before after : World) : Prop :=
  exists sid, streamRef after = Some sid /\
              streams before !! sid = None /\
              is_Some (streams after !! sid).

(** ** Relations between the start and the end of a run *)

(** Programs that keep a relation between the world they start in and
    the world they end in. *)
Definition preserves (R : World -> World -> Prop) {A} (m : M A) : Prop :=
  forall w, R w (exec m w).

Definition same_slot (w w' : World) : Prop := streamRef w' = streamRef w.

(** The slot after an operation: only a [startCamera()] whose
    [getUserMedia] resolves assigns it. *)
Definition slot_after (op : Op) (w : World) : option nat :=
  match op with
  | OpStart (GumResolve _) _ =>
      match video w, mediaDevices w with
      | Some _, HasGetUserMedia => Some (length (streams w))
      | _, _ => streamRef w
      end
  | _ => streamRef w
  end.

Definition is_console (ev : Event) : bool :=
  match ev with
  | EConsoleError _ => true
  | _ => false
  end.

(** The trace without the console entries. *)
Fixpoint quiet (tr : list Event) : list Event :=
  match tr with
  | [] => []
  | ev :: rest => if is_console ev then quiet rest else ev :: quiet rest
  end.

(** The world without what the status element and the console show. *)
Definition silence (w : World) : World :=
  mkWorld (video w) (canvas w) None (mediaDevices w) (streamRef w) (streams w)
          (timers w) (location w) (quiet (trace w)).

(** Two worlds that differ in the status text and the console at most. *)
Definition alike (w w' : World) : Prop := silence w' = silence w.

(** ** Sample worlds and outcomes *)

Definition a_camera : MediaStreamTrack := mkTrack "front camera" Live.

Definition a_video : Video := mkVideo 640 480 None true.

Definition a_canvas : Canvas := mkCanvas 300 150 true None.

Definition a_jpeg : string := "data:image/jpeg;base64,/9j/4AAQ".

(** The page as it loads, with its three elements. *)
Definition a_page : World :=
  page (Some a_video) (Some a_canvas) (Some EmptyString) HasGetUserMedia.

Definition a_page_without_video : World :=
  page None (Some a_canvas) (Some EmptyString) HasGetUserMedia.

Definition a_page_without_canvas : World :=
  page (Some a_video) None (Some EmptyString) HasGetUserMedia.

(** The camera runs but the video has no frame yet. *)
Definition a_page_not_ready : World :=
  page (Some (mkVideo 0 0 (Some 0) false)) (Some a_canvas) (Some EmptyString)
       HasGetUserMedia.

(** A page whose camera runs: the slot holds stream 0, bound to the
    video element. *)
Definition a_live_page : World :=
  with_streamRef (Some 0)
    (with_streams [[a_camera]]
       (page (Some (mkVideo 640 480 (Some 0) false)) (Some a_canvas) (Some EmptyString)
             HasGetUserMedia)).

Definition an_accepted_response : FetchOutcome :=
  FetchResolve 200 (BodyJson (JObj [("ok", JBool true)])).

Definition permission_denied : JsError :=
  mkError "NotAllowedError" "Permission denied".

Definition play_failed : JsError :=
  mkError "NotSupportedError" "The element has no supported sources.".

(** ** Notions for the camera life cycle *)

(** The numbers of the tracks of [ts] that are live, counting from
    [idx]. *)
Fixpoint live_from (idx : nat) (ts : list MediaStreamTrack) : list nat :=
  match ts with
  | [] => []
  | t :: rest =>
      match readyState t with
      | Live => idx :: live_from (S idx) rest
      | Ended => live_from (S idx) rest
      end
  end.

(** What [startCamera()] adds to the trace. *)
Definition start_events (w : World) (gum : GumOutcome) (play : PlayOutcome)
  : list Event :=
  match video w with
  | None => [EConsoleError (LogText "Video element not found.")]
  | Some _ =>
      match mediaDevices w with
      | NoMediaDevices | NoGetUserMedia => []
      | HasGetUserMedia =>
          EGetUserMedia "user" false ::
          match gum, play with
          | GumReject e, _ => [EConsoleError (LogError e)]
          | GumResolve _, PlayReject e => [EConsoleError (LogError e)]
          | GumResolve _, PlayResolve => []
          end
      end
  end.

(** A page with two streams in the heap, the second one held. *)
Definition two_streams : World :=
  with_streamRef (Some 1)
    (with_streams [[a_camera]; [mkTrack "back camera" Live]] a_page).

(** ** Notions for the outcome of a submit *)

(** What a flow makes of a response. *)
Inductive Verdict : Type :=
| Accepted
| Refused (text : string)       (* the status text of a rejected request *)
| Failed (e : JsError)          (* thrown before the status is looked at *)
| TextFailed (e : JsError).     (* thrown while the status text is built *)

(** ["❌ " + (data.error || fallback)] *)
Definition refusal (ep : Endpoint) (data : json) : Verdict :=
  match get_prop data F_error with
  | Normal err =>
      match concat "❌ " (or_else err (fallback_text ep)) with
      | Normal text => Refused text
      | Throw e => TextFailed e
      end
  | Throw e => TextFailed e
  end.

Definition verdict (ep : Endpoint) (r : Response) : Verdict :=
  match parsed_of r with
  | BodyReject e => Failed e
  | BodyJson data =>
      if response_ok r then
        match get_prop data F_ok with
        | Normal ok => if truthy ok then Accepted else refusal ep data
        | Throw e => Failed e
        end
      else refusal ep data
  end.

Definition net_verdict (ep : Endpoint) (net : FetchOutcome) : Verdict :=
  match net with
  | FetchResolve st parsed => verdict ep (mkResponse st parsed)
  | FetchReject e => Failed e
  end.

(** The catch block of a flow, as a function on worlds. *)
Definition caught (ep : Endpoint) (e : JsError) (w : World) : World :=
  write_status (server_error_text ep) (emit [EConsoleError (LogError e)] w).

(** The world a verdict leads to. *)
Definition settle (ep : Endpoint) (v : Verdict) (w : World) : World :=
  match v with
  | Accepted =>
      exec (schedule_redirect (redirect_delay ep))
           (stopped (write_status (success_text ep) w))
  | Refused text => write_status text w
  | Failed e => caught ep e w
  | TextFailed e =>
      match status w with
      | Some _ => caught ep e w
      | None => w
      end
  end.

(** The server-error texts of the three flows, as the source spells
    them. *)
Definition server_error (f : Flow) : string :=
  match f with
  | Register => "❌ Server error during registration."
  | VerifyVote => "❌ Server error during verification."
  | Login => "❌ Server error during login."
  end.

(** The timer an accepted flow schedules, if any. *)
Definition schedule_events (f : Flow) : list Event :=
  match f with
  | Register => [ESetTimeout 1200 (Redirect "/elections")]
  | VerifyVote => []
  | Login => [ESetTimeout 1000 (Redirect "/elections")]
  end.

(** Every pending timer is a redirect to /elections. *)
Definition only_redirects (w : World) : Prop :=
  Forall (fun t => snd t = Redirect "/elections") (timers w).

(** Whether the outcome of the request makes a flow take its success
    branch. *)
Definition net_accepted (net : FetchOutcome) : bool :=
  match net with
  | FetchResolve st parsed => accepts (mkResponse st parsed)
  | FetchReject _ => false
  end.

(** A parsed body that is neither [null] nor an object. *)
Definition plain_value (data : json) : bool :=
  match data with
  | JNull | JObj _ => false
  | JBool _ | JNum _ | JStr _ | JArr _ => true
  end.

(** The location stays and the pending timers stay redirects to
    /elections. *)
Definition stays_here (w w' : World) : Prop :=
  location w' = location w /\ (only_redirects w -> only_redirects w').

(** * Properties *)

Lemma stopCamera_normal (w : World) : result stopCamera w = Normal tt.
Proof.
  unfold result, stopCamera.
  destruct (streamRef w) as [sid|]; [|reflexivity].
  destruct (streams w !! sid) as [ts|]; [|reflexivity].
  destruct (stop_each sid 0 ts); reflexivity.
Qed.

Lemma run_flow_submit (f : Flow) (jpeg : string) (net : FetchOutcome) (w : World) :
  run_flow f jpeg net w = submit (endpoint f) jpeg net w.
Proof.
  destruct f; try reflexivity.
  cbn. unfold captureAndVerifyVote, submit, on_response, bind, try_catch.
  destruct (captureImageBase64 jpeg w) as [[image|e] w1]; [|reflexivity].
  destruct (falsy_image image); [reflexivity|].
  destruct (if_status _ w1) as [[[]|e] w2]; [|reflexivity].
  destruct (fetch _ _ net w2) as [[response|e] w3]; [|reflexivity].
  destruct (response_json response w3) as [[data|e] w4]; [|reflexivity].
  match goal with |- context [match ?c w4 with _ => _ end] =>
    destruct (c w4) as [[[|]|e] w5] end; try reflexivity.
  destruct (if_status _ w5) as [[[]|e] w6]; [|reflexivity].
  cbn. pose proof (stopCamera_normal w6) as Hn. unfold result in Hn.
  destruct (stopCamera w6) as [[[]|e] w7]; cbn in Hn; [reflexivity|discriminate].
Qed.

(** ** Status writes *)

Lemma if_status_ret (text : string) (w : World) :
  if_status (ret text) w = (Normal tt, write_status text w).
Proof. unfold if_status, write_status. destruct (status w); reflexivity. Qed.

Lemma status_write_status (text : string) (w : World) :
  status (write_status text w) = (fun _ => text) <$> status w.
Proof. unfold write_status. destruct (status w) eqn:E; [reflexivity | exact E]. Qed.

(** ** Stopping tracks *)

Lemma stop_each_ended (sid idx : nat) (ts : list MediaStreamTrack) :
  all_ended (fst (stop_each sid idx ts)).
Proof.
  revert idx. induction ts as [|t rest IH]; intros idx; cbn.
  - constructor.
  - specialize (IH (S idx)). unfold track_stop.
    destruct (stop_each sid (S idx) rest) as [rest' evs].
    destruct t as [lbl [|]]; cbn in *; constructor; auto.
Qed.

Lemma stop_each_of_ended (sid idx : nat) (ts : list MediaStreamTrack) :
  all_ended ts -> stop_each sid idx ts = (ts, []).
Proof.
  intros H. revert idx. induction H as [|t rest Ht _ IH]; intros idx; cbn.
  - reflexivity.
  - rewrite IH. unfold track_stop. rewrite Ht. reflexivity.
Qed.

Lemma stop_each_length (sid idx : nat) (ts : list MediaStreamTrack) :
  length (fst (stop_each sid idx ts)) = length ts.
Proof.
  revert idx. induction ts as [|t rest IH]; intros idx; cbn; [reflexivity|].
  specialize (IH (S idx)).
  destruct (track_stop sid idx t), (stop_each sid (S idx) rest); cbn in *.
  congruence.
Qed.

Lemma stop_each_labels (sid idx : nat) (ts : list MediaStreamTrack) :
  map label (fst (stop_each sid idx ts)) = map label ts.
Proof.
  revert idx. induction ts as [|t rest IH]; intros idx; cbn; [reflexivity|].
  specialize (IH (S idx)). unfold track_stop.
  destruct (stop_each sid (S idx) rest); destruct t as [lbl [|]]; cbn in *;
    congruence.
Qed.

(** The track-stop events are device releases and nothing else. *)
Lemma stop_each_events (sid idx : nat) (ts : list MediaStreamTrack) :
  Forall (fun ev => exists i, ev = ETrackEnded sid i) (snd (stop_each sid idx ts)).
Proof.
  revert idx. induction ts as [|t rest IH]; intros idx; cbn; [constructor|].
  specialize (IH (S idx)). unfold track_stop.
  destruct (stop_each sid (S idx) rest); destruct t as [lbl [|]]; cbn in *; auto.
  constructor; eauto.
Qed.

Lemma stopCamera_run (w : World) : stopCamera w = (Normal tt, stopped w).
Proof.
  unfold stopCamera, stopped.
  destruct (streamRef w) as [sid|]; [|reflexivity].
  destruct (streams w !! sid) as [ts|]; [|reflexivity].
  destruct (stop_each sid 0 ts); reflexivity.
Qed.

Lemma emit_nil (w : World) : emit [] w = w.
Proof. destruct w; unfold emit; cbn. rewrite app_nil_r. reflexivity. Qed.

Lemma stopped_stopped (w : World) : stopped (stopped w) = stopped w.
Proof.
  unfold stopped at 2 3.
  destruct (streamRef w) as [sid|] eqn:Href; [|unfold stopped; rewrite Href; reflexivity].
  destruct (streams w !! sid) as [ts|] eqn:Hts;
    [|unfold stopped; rewrite Href, Hts; reflexivity].
  unfold stopped; cbn. rewrite Href.
  rewrite list_lookup_insert_eq by (eapply lookup_lt_Some; eassumption).
  rewrite (stop_each_of_ended sid 0 _ (stop_each_ended sid 0 ts)); cbn.
  rewrite list_insert_insert_eq.
  unfold emit, with_streams; cbn. rewrite app_nil_r. reflexivity.
Qed.

(** C3: [stopCamera()] is idempotent.  Neither of two calls in a row
    throws.  The slot is not cleared, so the second call visits the
    same tracks, finds each of them ended and leaves it alone: the
    second call changes nothing and adds no event to the trace.  With
    no stream held the call leaves the world as it is. *)
Theorem stopCamera_idempotent (w : World) :
  result stopCamera w = Normal tt /\
  result stopCamera (exec stopCamera w) = Normal tt /\
  exec stopCamera (exec stopCamera w) = exec stopCamera w /\
  trace (exec stopCamera (exec stopCamera w)) = trace (exec stopCamera w) /\
  (streamRef w = None -> stopCamera w = (Normal tt, w)).
Proof.
  unfold result, exec. rewrite !stopCamera_run; cbn.
  rewrite stopped_stopped. repeat split.
  intros H. unfold stopped. rewrite H. reflexivity.
Qed.

Lemma stopCamera_idempotent_witness :
  stopCamera a_page = (Normal tt, a_page).
Proof. apply (stopCamera_idempotent a_page). reflexivity. Defined.

Example stopCamera_twice_live :
  let w := with_streamRef (Some 0)
             (with_streams [[a_camera; mkTrack "second" Ended]] a_page) in
  trace (exec stopCamera w) = [ETrackEnded 0 0] /\
  streams (exec stopCamera w) = [[mkTrack "front camera" Ended; mkTrack "second" Ended]] /\
  exec stopCamera (exec stopCamera w) = exec stopCamera w.
Proof. repeat split. Qed.

(** ** Capturing a frame *)

(** [captureImageBase64] touches nothing but the canvas. *)
Lemma capture_frame (jpeg : string) (w : World) :
  exists c, exec (captureImageBase64 jpeg) w = with_canvas c w.
Proof.
  unfold exec, captureImageBase64.
  destruct w as [[v|] [c|] s md r h t l tr]; cbn;
    try (eexists; unfold with_canvas; cbn; reflexivity).
  destruct ((videoWidth v =? 0)%N || (videoHeight v =? 0)%N);
    [eexists; unfold with_canvas; cbn; reflexivity|].
  destruct (context2d c); eexists; unfold with_canvas; cbn; reflexivity.
Qed.

Lemma capture_some (jpeg : string) (w : World) (img : string) :
  result (captureImageBase64 jpeg) w = Normal (Some img) ->
  exists v c,
    video w = Some v /\ canvas w = Some c /\
    videoWidth v <> 0%N /\ videoHeight v <> 0%N /\
    context2d c = true /\ img = jpeg /\
    exec (captureImageBase64 jpeg) w
    = with_canvas (Some (mkCanvas (videoWidth v) (videoHeight v) true
                                  (Some (videoWidth v, videoHeight v)))) w.
Proof.
  unfold result, exec, captureImageBase64.
  destruct (video w) as [v|]; [|discriminate].
  destruct (canvas w) as [c|]; [|discriminate].
  destruct (videoWidth v =? 0)%N eqn:Hw; [discriminate|].
  destruct (videoHeight v =? 0)%N eqn:Hh; [discriminate|]. cbn.
  destruct (context2d c) eqn:Hc; [|discriminate]. cbn. intros [= <-].
  apply N.eqb_neq in Hw, Hh. exists v, c. repeat split; try assumption; reflexivity.
Qed.

(** C8: [captureImageBase64()] returns [null] and changes nothing
    whenever the video reports a zero width or a zero height, in
    particular 0x0, whatever the world it is called in; when it returns
    a frame, both elements exist and the video reports a non-zero width
    and a non-zero height. *)
Theorem capture_needs_dimensions (jpeg : string) (w : World) :
  (forall v, video w = Some v ->
             videoWidth v = 0%N \/ videoHeight v = 0%N ->
             captureImageBase64 jpeg w = (Normal None, w)) /\
  (forall img, result (captureImageBase64 jpeg) w = Normal (Some img) ->
               exists v c, video w = Some v /\ canvas w = Some c /\
                           videoWidth v <> 0%N /\ videoHeight v <> 0%N).
Proof.
  split.
  - intros v Hv Hz. unfold captureImageBase64. rewrite Hv.
    destruct (canvas w); [|reflexivity].
    destruct Hz as [-> | ->]; cbn; [reflexivity|].
    rewrite orb_true_r. reflexivity.
  - intros img H. destruct (capture_some _ _ _ H) as (v & c & ? & ? & ? & ? & _).
    exists v, c. auto.
Qed.

Lemma capture_needs_dimensions_witness :
  captureImageBase64 a_jpeg a_page_not_ready = (Normal None, a_page_not_ready)
  /\ exists v c,
       video a_page = Some v /\
       canvas a_page = Some c /\
       videoWidth v <> 0%N /\ videoHeight v <> 0%N.
Proof.
  split.
  - apply (proj1 (capture_needs_dimensions a_jpeg a_page_not_ready)
                 (mkVideo 0 0 (Some 0) false)).
    + reflexivity.
    + left. reflexivity.
  - apply (proj2 (capture_needs_dimensions a_jpeg a_page) a_jpeg).
    reflexivity.
Defined.

(** ** Submitting without a frame *)

Lemma submit_no_image (ep : Endpoint) (jpeg : string) (net : FetchOutcome)
    (w : World) (image : option string) :
  result (captureImageBase64 jpeg) w = Normal image ->
  falsy_image image = true ->
  submit ep jpeg net w
  = (Normal tt, write_status warning_text (exec (captureImageBase64 jpeg) w)).
Proof.
  unfold result, exec, submit, bind. intros Hr Hf.
  destruct (captureImageBase64 jpeg w) as [r w1]; cbn in *; subst r.
  rewrite Hf. apply if_status_ret.
Qed.

(** C1: in each of the three submit flows, when [captureImageBase64()]
    yields [null] or the empty string, the flow returns normally after
    writing the warning to the status element, and adds nothing to the
    trace: no network request is issued. *)
Theorem no_image_no_request (f : Flow) (jpeg : string) (net : FetchOutcome)
    (w : World) (image : option string) :
  result (captureImageBase64 jpeg) w = Normal image ->
  falsy_image image = true ->
  run_flow f jpeg net w
  = (Normal tt, write_status "⚠ Please start camera first."
                             (exec (captureImageBase64 jpeg) w)) /\
  status (exec (run_flow f jpeg net) w)
  = (fun _ => "⚠ Please start camera first.") <$> status w /\
  trace (exec (run_flow f jpeg net) w) = trace w /\
  timers (exec (run_flow f jpeg net) w) = timers w.
Proof.
  intros Hr Hf. unfold exec. rewrite run_flow_submit.
  rewrite (submit_no_image _ _ _ _ _ Hr Hf). cbn [snd].
  split; [reflexivity|].
  destruct (capture_frame jpeg w) as [c Hc]. rewrite Hc.
  rewrite status_write_status.
  unfold write_status; cbn. destruct (status w); repeat split.
Qed.

Lemma no_image_no_request_witness :
  trace (exec (run_flow Login a_jpeg an_accepted_response) a_page_without_video)
  = trace a_page_without_video /\
  status (exec (run_flow Register EmptyString an_accepted_response) a_live_page)
  = Some "⚠ Please start camera first.".
Proof.
  split.
  - apply (no_image_no_request Login a_jpeg an_accepted_response
             a_page_without_video None); reflexivity.
  - apply (no_image_no_request Register EmptyString an_accepted_response
             a_live_page (Some EmptyString)); reflexivity.
Defined.

(** ** Submitting a frame *)

Lemma submit_with_image (ep : Endpoint) (jpeg : string) (net : FetchOutcome)
    (w : World) (img : string) :
  result (captureImageBase64 jpeg) w = Normal (Some img) ->
  falsy_image (Some img) = false ->
  submit ep jpeg net w
  = match net with
    | FetchResolve st parsed =>
        try_catch (on_response ep (mkResponse st parsed)) (on_error ep)
                  (sent ep jpeg img w)
    | FetchReject e => on_error ep e (sent ep jpeg img w)
    end.
Proof.
  unfold result, exec, submit, sent, bind, exec. intros Hr Hf.
  destruct (captureImageBase64 jpeg w) as [r w1]; cbn [fst snd] in *; subst r.
  rewrite Hf, if_status_ret. unfold try_catch, fetch. cbn [default].
  destruct net as [st parsed|e]; reflexivity.
Qed.

Lemma on_error_run (ep : Endpoint) (e : JsError) (w : World) :
  on_error ep e w
  = (Normal tt, write_status (server_error_text ep) (emit [EConsoleError (LogError e)] w)).
Proof. unfold on_error, bind, console_error, modify. apply if_status_ret. Qed.

(** A response whose body does not parse. *)
Lemma on_response_unparsable (ep : Endpoint) (st : N) (e : JsError) (w : World) :
  try_catch (on_response ep (mkResponse st (BodyReject e))) (on_error ep) w
  = (Normal tt, write_status (server_error_text ep) (emit [EConsoleError (LogError e)] w)).
Proof. unfold try_catch, on_response, bind; cbn. apply on_error_run. Qed.

Lemma on_response_rejected (ep : Endpoint) (st : N) (fields : list (string * json))
    (w : World) :
  rejected st fields = true ->
  on_response ep (mkResponse st (BodyJson (JObj fields))) w
  = if_status (lift (concat "❌ " (or_else (own_property "error" fields)
                                            (fallback_text ep)))) w.
Proof.
  unfold rejected, on_response, bind, response_json, ret, lift; cbn. intros H.
  destruct (response_ok _); cbn in *; [rewrite H|]; cbn.
  all: unfold if_status, bind, lift; destruct (status w); reflexivity.
Qed.

Lemma on_response_accepted (ep : Endpoint) (st : N) (data : json)
    (ok : option json) (w : World) :
  response_ok (mkResponse st (BodyJson data)) = true ->
  get_prop data F_ok = Normal ok ->
  truthy ok = true ->
  on_response ep (mkResponse st (BodyJson data)) w
  = (Normal tt,
     exec (schedule_redirect (redirect_delay ep))
          (stopped (write_status (success_text ep) w))).
Proof.
  unfold on_response, bind, response_json, ret, lift, exec; cbn [parsed_of].
  intros -> -> ->; cbn [negb].
  change (fun w0 : World => (Normal (success_text ep), w0)) with (ret (success_text ep)).
  rewrite if_status_ret, stopCamera_run.
  destruct (redirect_delay ep); reflexivity.
Qed.

(** Writing a text to the status element, in one step or after another
    write. *)
Lemma status_if_status_text (text : string) (w : World) :
  status (exec (if_status (lift (Normal text))) w) = (fun _ => text) <$> status w.
Proof.
  unfold exec, if_status, bind, lift, modify.
  destruct (status w) eqn:E; cbn; [reflexivity | exact E].
Qed.

Lemma status_sent (ep : Endpoint) (jpeg img : string) (w : World) :
  status (sent ep jpeg img w) = (fun _ => progress_text ep) <$> status w.
Proof.
  unfold sent. destruct (capture_frame jpeg w) as [c ->].
  cbn. rewrite status_write_status. reflexivity.
Qed.

Lemma fmap_const_twice (a b : string) (s : option string) :
  (fun _ => a) <$> ((fun _ => b) <$> s) = (fun _ => a) <$> s.
Proof. destruct s; reflexivity. Qed.

(** C6: in every submit flow that captured a frame, a parsed object
    body that is rejected (its [ok] is falsy, as in [{"ok": false,
    "error": "X"}], or the HTTP status is not 2xx) sets the status text
    to the cross mark, a space and the [error] string when that string
    is not empty, and to the cross mark, a space and the fallback text
    of the flow when [error] is absent or empty. *)
Theorem rejected_status_text (f : Flow) (jpeg : string) (w : World) (img : string)
    (st : N) (fields : list (string * json)) :
  result (captureImageBase64 jpeg) w = Normal (Some img) ->
  falsy_image (Some img) = false ->
  response_ok (mkResponse st (BodyJson (JObj fields))) = false
  \/ truthy (own_property "ok" fields) = false ->
  (forall X, own_property "error" fields = Some (JStr X) -> X <> EmptyString ->
     status (exec (run_flow f jpeg (FetchResolve st (BodyJson (JObj fields)))) w)
     = (fun _ => "❌ " +:+ X) <$> status w) /\
  (own_property "error" fields = None \/ own_property "error" fields = Some (JStr EmptyString) ->
     status (exec (run_flow f jpeg (FetchResolve st (BodyJson (JObj fields)))) w)
     = (fun _ => "❌ " +:+ fallback f) <$> status w).
Proof.
  intros Hr Hf Hrej.
  assert (Hrej' : rejected st fields = true).
  { unfold rejected. destruct Hrej as [-> | ->]; [reflexivity | apply orb_true_r]. }
  assert (Hrun : forall text,
             concat "❌ " (or_else (own_property "error" fields)
                                    (fallback_text (endpoint f))) = Normal text ->
             status (exec (run_flow f jpeg (FetchResolve st (BodyJson (JObj fields)))) w)
             = (fun _ => text) <$> status w).
  { intros text Hc. unfold exec at 1. rewrite run_flow_submit.
    rewrite (submit_with_image _ _ _ _ _ Hr Hf). unfold try_catch.
    rewrite (on_response_rejected _ _ _ _ Hrej'), Hc.
    pose proof (status_if_status_text text (sent (endpoint f) jpeg img w)) as Hs.
    unfold exec in Hs.
    destruct (if_status (lift (Normal text)) (sent (endpoint f) jpeg img w))
      as [[[]|e] w'] eqn:E; cbn [snd] in *.
    - rewrite Hs, status_sent. apply fmap_const_twice.
    - exfalso. revert E. unfold if_status, bind, lift, modify.
      destruct (status (sent (endpoint f) jpeg img w)); discriminate. }
  split.
  - intros X HX Hne. apply Hrun. rewrite HX. unfold or_else, truthy.
    destruct (String.eqb_spec X EmptyString); [contradiction | reflexivity].
  - intros [H | H]; apply Hrun; rewrite H; destruct f; reflexivity.
Qed.

Lemma rejected_status_text_witness :
  status (exec (run_flow VerifyVote a_jpeg
                 (FetchResolve 200 (BodyJson (JObj [("ok", JBool false);
                                                    ("error", JStr "Face not recognised")]))))
               a_live_page)
  = Some "❌ Face not recognised" /\
  status (exec (run_flow Register a_jpeg
                 (FetchResolve 200 (BodyJson (JObj [("ok", JBool false)]))))
               a_live_page)
  = Some "❌ Registration failed.".
Proof.
  split.
  - apply (proj1 (rejected_status_text VerifyVote a_jpeg a_live_page a_jpeg 200
                    [("ok", JBool false); ("error", JStr "Face not recognised")]
                    eq_refl eq_refl (or_intror eq_refl))
                 "Face not recognised" eq_refl).
    discriminate.
  - apply (proj2 (rejected_status_text Register a_jpeg a_live_page a_jpeg 200
                    [("ok", JBool false)] eq_refl eq_refl (or_intror eq_refl))
                 (or_introl eq_refl)).
Defined.

(** ** What a submit leaves alone *)

Lemma sent_frame (ep : Endpoint) (jpeg img : string) (w : World) :
  streamRef (sent ep jpeg img w) = streamRef w /\
  streams (sent ep jpeg img w) = streams w /\
  timers (sent ep jpeg img w) = timers w /\
  location (sent ep jpeg img w) = location w /\
  trace (sent ep jpeg img w) = trace w ++ [EFetch (request ep img)].
Proof.
  unfold sent. destruct (capture_frame jpeg w) as [c ->].
  unfold write_status; cbn. destruct (status w); repeat split.
Qed.

Lemma write_status_frame (text : string) (w : World) :
  streamRef (write_status text w) = streamRef w /\
  streams (write_status text w) = streams w /\
  timers (write_status text w) = timers w /\
  location (write_status text w) = location w /\
  trace (write_status text w) = trace w.
Proof. unfold write_status. destruct (status w); repeat split. Qed.

Lemma stopped_frame (w : World) :
  streamRef (stopped w) = streamRef w /\
  status (stopped w) = status w /\
  timers (stopped w) = timers w /\
  location (stopped w) = location w /\
  length (streams (stopped w)) = length (streams w) /\
  trace (stopped w) = trace w ++ stop_events w.
Proof.
  unfold stopped, stop_events.
  destruct (streamRef w) as [sid|] eqn:Href;
    [|rewrite app_nil_r; repeat split; assumption].
  destruct (streams w !! sid) as [ts|];
    [|rewrite app_nil_r; repeat split; assumption].
  cbn. rewrite length_insert. repeat split; assumption.
Qed.

(** After [stopCamera()] every track of the held stream has ended. *)
Lemma stopped_held (w : World) (sid : nat) (ts : MediaStream) :
  streamRef w = Some sid ->
  streams w !! sid = Some ts ->
  exists ts', streams (stopped w) !! sid = Some ts' /\
              all_ended ts' /\ map label ts' = map label ts.
Proof.
  intros Hr Hs. unfold stopped. rewrite Hr, Hs; cbn.
  exists (fst (stop_each sid 0 ts)). split; [|split].
  - apply list_lookup_insert_eq. eapply lookup_lt_Some; eassumption.
  - apply stop_each_ended.
  - apply stop_each_labels.
Qed.

Lemma stop_events_only_tracks (w : World) :
  Forall (fun ev => exists sid i, ev = ETrackEnded sid i) (stop_events w).
Proof.
  unfold stop_events.
  destruct (streamRef w) as [sid|]; [|constructor].
  destruct (streams w !! sid) as [ts|]; [|constructor].
  eapply Forall_impl; [apply stop_each_events|].
  intros ev [i ->]. eauto.
Qed.

(** ** An accepted submit *)

Lemma submit_accepted (ep : Endpoint) (jpeg : string) (w : World) (img : string)
    (st : N) (data : json) :
  result (captureImageBase64 jpeg) w = Normal (Some img) ->
  falsy_image (Some img) = false ->
  accepted st data ->
  submit ep jpeg (FetchResolve st (BodyJson data)) w
  = (Normal tt,
     exec (schedule_redirect (redirect_delay ep))
          (exec stopCamera (succeeded ep jpeg img w))).
Proof.
  intros Hr Hf (Hok & ok & Hget & Ht).
  rewrite (submit_with_image _ _ _ _ _ Hr Hf). unfold try_catch.
  rewrite (on_response_accepted _ _ _ _ _ Hok Hget Ht).
  unfold exec at 3. rewrite stopCamera_run. reflexivity.
Qed.

Lemma succeeded_frame (ep : Endpoint) (jpeg img : string) (w : World) :
  streamRef (succeeded ep jpeg img w) = streamRef w /\
  streams (succeeded ep jpeg img w) = streams w /\
  timers (succeeded ep jpeg img w) = timers w /\
  status (succeeded ep jpeg img w) = (fun _ => success_text ep) <$> status w /\
  trace (succeeded ep jpeg img w) = trace w ++ [EFetch (request ep img)].
Proof.
  unfold succeeded.
  destruct (write_status_frame (success_text ep) (sent ep jpeg img w))
    as (-> & -> & -> & _ & ->).
  destruct (sent_frame ep jpeg img w) as (-> & -> & -> & _ & ->).
  rewrite status_write_status, status_sent, fmap_const_twice. repeat split.
Qed.

Lemma fire_scheduled (cb : Callback) (delay : N) (w : World) :
  fire (length (timers w)) (exec (setTimeout cb delay) w)
  = run_callback cb (emit [ESetTimeout delay cb] w).
Proof.
  unfold fire, exec, setTimeout, modify; cbn.
  rewrite list_lookup_middle by reflexivity.
  assert (Hd : delete (length (timers w)) (timers w ++ [(delay, cb)]) = timers w).
  { generalize (timers w) as l. induction l as [|x l IH]; cbn; [reflexivity|].
    f_equal. exact IH. }
  rewrite Hd. destruct w, cb; reflexivity.
Qed.

(** C2: when registration or login is accepted, the flow ends as
    [stopCamera()] called in the world that shows the success text,
    followed by [setTimeout] of the redirect; every track of the held
    stream has ended in the world in which the timer is scheduled, and
    once that timer fires the trace reads: the request, the track
    stops, the scheduling, the navigation to /elections. *)
Theorem stop_before_redirect (f : Flow) (jpeg : string) (w : World) (img : string)
    (st : N) (data : json) :
  f <> VerifyVote ->
  result (captureImageBase64 jpeg) w = Normal (Some img) ->
  falsy_image (Some img) = false ->
  accepted st data ->
  exists delay,
    run_flow f jpeg (FetchResolve st (BodyJson data)) w
    = (Normal tt,
       exec (setTimeout (Redirect "/elections") delay)
            (exec stopCamera (succeeded (endpoint f) jpeg img w))) /\
    (forall sid ts,
       streamRef w = Some sid -> streams w !! sid = Some ts ->
       exists ts',
         streams (exec stopCamera (succeeded (endpoint f) jpeg img w)) !! sid = Some ts'
         /\ all_ended ts') /\
    trace (fire (length (timers w))
                (exec (run_flow f jpeg (FetchResolve st (BodyJson data))) w))
    = trace w
      ++ [EFetch (request (endpoint f) img)]
      ++ stop_events (succeeded (endpoint f) jpeg img w)
      ++ [ESetTimeout delay (Redirect "/elections"); ENavigate "/elections"].
Proof.
  intros Hf Hr Hi Hacc.
  assert (Hd : exists delay, redirect_delay (endpoint f) = Some delay).
  { destruct f; [eexists; reflexivity | contradiction | eexists; reflexivity]. }
  destruct Hd as [delay Hd]. exists delay.
  assert (Hrun : run_flow f jpeg (FetchResolve st (BodyJson data)) w
                 = (Normal tt,
                    exec (setTimeout (Redirect "/elections") delay)
                         (exec stopCamera (succeeded (endpoint f) jpeg img w)))).
  { rewrite run_flow_submit, (submit_accepted _ _ _ _ _ _ Hr Hi Hacc), Hd.
    reflexivity. }
  destruct (succeeded_frame (endpoint f) jpeg img w) as (Href & Hstr & Htm & _ & Htr).
  split; [exact Hrun|]. split.
  - intros sid ts Hs Hl. unfold exec at 1. rewrite stopCamera_run; cbn [snd].
    destruct (stopped_held (succeeded (endpoint f) jpeg img w) sid ts)
      as (ts' & ? & ? & _); [congruence | congruence |].
    exists ts'. auto.
  - unfold exec at 1. rewrite Hrun; cbn [snd].
    unfold exec at 2. rewrite stopCamera_run; cbn [snd].
    destruct (stopped_frame (succeeded (endpoint f) jpeg img w))
      as (_ & _ & Htm' & _ & _ & Htr').
    rewrite <- Htm, <- Htm', fire_scheduled. cbn.
    rewrite Htr', Htr, <- !app_assoc. reflexivity.
Qed.

Lemma accepted_ok_true : accepted 200 (JObj [("ok", JBool true)]).
Proof. split; [reflexivity|]. exists (Some (JBool true)). split; reflexivity. Defined.

Lemma stop_before_redirect_witness :
  exists delay,
    trace (fire 0 (exec (run_flow Login a_jpeg an_accepted_response) a_live_page))
    = [EFetch (request (endpoint Login) a_jpeg)]
      ++ stop_events (succeeded (endpoint Login) a_jpeg a_jpeg a_live_page)
      ++ [ESetTimeout delay (Redirect "/elections"); ENavigate "/elections"].
Proof.
  destruct (stop_before_redirect Login a_jpeg a_live_page a_jpeg 200
              (JObj [("ok", JBool true)]))
    as (delay & _ & _ & H).
  - discriminate.
  - reflexivity.
  - reflexivity.
  - exact accepted_ok_true.
  - exists delay. exact H.
Defined.

Example login_accepted_trace :
  trace (fire 0 (exec (captureAndLogin a_jpeg an_accepted_response) a_live_page))
  = [EFetch (mkRequest "/api/login-face-verify" "POST" "application/json"
                       (JObj [("image", JStr a_jpeg)]));
     ETrackEnded 0 0;
     ESetTimeout 1000 (Redirect "/elections");
     ENavigate "/elections"].
Proof. reflexivity. Qed.

(** C7: when the response is accepted, [captureAndRegister] adds one
    timer, the redirect to /elections after 1200 ms, and
    [captureAndLogin] adds one, the same redirect after 1000 ms; firing
    either sets the location to /elections.  [captureAndVerifyVote]
    shows its success text, ends every track of the held stream, leaves
    the timers as they were and adds to the trace only the request and
    the track stops. *)
Theorem success_redirects (jpeg : string) (w : World) (img : string)
    (st : N) (data : json) :
  result (captureImageBase64 jpeg) w = Normal (Some img) ->
  falsy_image (Some img) = false ->
  accepted st data ->
  let net := FetchResolve st (BodyJson data) in
  (timers (exec (captureAndRegister jpeg net) w)
   = timers w ++ [(1200%N, Redirect "/elections")] /\
   location (fire (length (timers w)) (exec (captureAndRegister jpeg net) w))
   = "/elections") /\
  (timers (exec (captureAndLogin jpeg net) w)
   = timers w ++ [(1000%N, Redirect "/elections")] /\
   location (fire (length (timers w)) (exec (captureAndLogin jpeg net) w))
   = "/elections") /\
  (status (exec (captureAndVerifyVote jpeg net) w)
   = (fun _ => "✅ Face verified successfully!") <$> status w /\
   (forall sid ts,
      streamRef w = Some sid -> streams w !! sid = Some ts ->
      exists ts', streams (exec (captureAndVerifyVote jpeg net) w) !! sid = Some ts'
                  /\ all_ended ts') /\
   timers (exec (captureAndVerifyVote jpeg net) w) = timers w /\
   trace (exec (captureAndVerifyVote jpeg net) w)
   = trace w ++ [EFetch (request (endpoint VerifyVote) img)]
             ++ stop_events (succeeded (endpoint VerifyVote) jpeg img w)).
Proof.
  intros Hr Hi Hacc net.
  assert (Hrun : forall f,
            exec (run_flow f jpeg net) w
            = exec (schedule_redirect (redirect_delay (endpoint f)))
                   (stopped (succeeded (endpoint f) jpeg img w))).
  { intros f. unfold exec at 1. unfold net.
    rewrite run_flow_submit, (submit_accepted _ _ _ _ _ _ Hr Hi Hacc); cbn [snd].
    unfold exec at 2. rewrite stopCamera_run. reflexivity. }
  assert (Htimers : forall f, timers (stopped (succeeded (endpoint f) jpeg img w))
                              = timers w).
  { intros f.
    destruct (stopped_frame (succeeded (endpoint f) jpeg img w)) as (_ & _ & -> & _).
    apply succeeded_frame. }
  split; [|split].
  - change (captureAndRegister jpeg net) with (run_flow Register jpeg net).
    rewrite Hrun. change (redirect_delay (endpoint Register)) with (Some 1200%N).
    cbn [schedule_redirect]. rewrite <- (Htimers Register) at 2. rewrite fire_scheduled.
    split; [|reflexivity].
    unfold exec, setTimeout, modify, emit, with_timers; cbn [snd timers].
    rewrite (Htimers Register). reflexivity.
  - change (captureAndLogin jpeg net) with (run_flow Login jpeg net).
    rewrite Hrun. change (redirect_delay (endpoint Login)) with (Some 1000%N).
    cbn [schedule_redirect]. rewrite <- (Htimers Login) at 2. rewrite fire_scheduled.
    split; [|reflexivity].
    unfold exec, setTimeout, modify, emit, with_timers; cbn [snd timers].
    rewrite (Htimers Login). reflexivity.
  - change (captureAndVerifyVote jpeg net) with (run_flow VerifyVote jpeg net).
    rewrite Hrun. change (redirect_delay (endpoint VerifyVote)) with (@None N).
    cbn [schedule_redirect exec ret snd].
    destruct (succeeded_frame (endpoint VerifyVote) jpeg img w)
      as (Href & Hstr & _ & Hst & Htr).
    destruct (stopped_frame (succeeded (endpoint VerifyVote) jpeg img w))
      as (_ & Hst' & _ & _ & _ & Htr').
    split; [rewrite Hst', Hst; reflexivity|]. split; [|split].
    + intros sid ts Hs Hl.
      destruct (stopped_held (succeeded (endpoint VerifyVote) jpeg img w) sid ts)
        as (ts' & ? & ? & _); [congruence | congruence |].
      exists ts'. auto.
    + apply (Htimers VerifyVote).
    + rewrite Htr', Htr, <- app_assoc. reflexivity.
Qed.

Lemma success_redirects_witness :
  timers (exec (captureAndRegister a_jpeg an_accepted_response) a_live_page)
  = [(1200%N, Redirect "/elections")] /\
  timers (exec (captureAndLogin a_jpeg an_accepted_response) a_live_page)
  = [(1000%N, Redirect "/elections")] /\
  timers (exec (captureAndVerifyVote a_jpeg an_accepted_response) a_live_page) = [].
Proof.
  pose proof (success_redirects a_jpeg a_live_page a_jpeg 200 (JObj [("ok", JBool true)])
                eq_refl eq_refl accepted_ok_true) as (Hreg & Hlog & Hvote).
  split; [exact (proj1 Hreg)|]. split; [exact (proj1 Hlog)|].
  exact (proj1 (proj2 (proj2 Hvote))).
Defined.

(** C5: when the response to [captureAndRegister] carries a body that
    does not parse, whatever the HTTP status (500 in particular), the
    flow catches the rejection: it logs the error, shows the
    server-error text of registration and returns.  [stopCamera()] is
    not reached: the stream slot, every stream and the timers are as
    they were, and the trace gains the request and the console entry,
    no track stop. *)
Theorem unparsable_body_keeps_stream (jpeg : string) (w : World) (img : string)
    (st : N) (e : JsError) :
  result (captureImageBase64 jpeg) w = Normal (Some img) ->
  falsy_image (Some img) = false ->
  let w' := exec (captureAndRegister jpeg (FetchResolve st (BodyReject e))) w in
  result (captureAndRegister jpeg (FetchResolve st (BodyReject e))) w = Normal tt /\
  status w' = (fun _ => "❌ Server error during registration.") <$> status w /\
  streamRef w' = streamRef w /\
  streams w' = streams w /\
  timers w' = timers w /\
  trace w' = trace w ++ [EFetch (request (endpoint Register) img);
                         EConsoleError (LogError e)].
Proof.
  intros Hr Hi w'. subst w'. unfold result, exec.
  change (captureAndRegister jpeg (FetchResolve st (BodyReject e)))
    with (run_flow Register jpeg (FetchResolve st (BodyReject e))).
  rewrite run_flow_submit, (submit_with_image _ _ _ _ _ Hr Hi).
  rewrite on_response_unparsable; cbn [fst snd].
  split; [reflexivity|].
  rewrite status_write_status.
  destruct (write_status_frame (server_error_text (endpoint Register))
              (emit [EConsoleError (LogError e)] (sent (endpoint Register) jpeg img w)))
    as (-> & -> & -> & _ & ->).
  cbn [streamRef streams timers trace status emit].
  destruct (sent_frame (endpoint Register) jpeg img w) as (-> & -> & -> & _ & ->).
  rewrite status_sent, fmap_const_twice, <- app_assoc. repeat split.
Qed.

Lemma unparsable_body_keeps_stream_witness :
  streams (exec (captureAndRegister a_jpeg
                   (FetchResolve 500 (BodyReject (mkError "SyntaxError" "Unexpected token <"))))
                a_live_page)
  = streams a_live_page.
Proof.
  apply (unparsable_body_keeps_stream a_jpeg a_live_page a_jpeg 500
           (mkError "SyntaxError" "Unexpected token <") eq_refl eq_refl).
Defined.

(** ** Failures of [startCamera] *)

(** C4, as stated, fails: when [getUserMedia] resolves and
    [video.play()] rejects, the failure text is shown and the slot holds
    the stream just acquired, its track still live. *)
Lemma playback_failure_keeps_stream :
  let w := a_page in
  let w' := exec (startCamera (GumResolve [a_camera]) (PlayReject play_failed)) w in
  start_failure w (GumResolve [a_camera]) (PlayReject play_failed)
  = Some (PlaybackRejected [a_camera] play_failed) /\
  status w' = Some "❌ Camera error: The element has no supported sources." /\
  streamRef w = None /\ streamRef w' = Some 0 /\
  streams w' !! 0 = Some [mkTrack "front camera" Live] /\
  holds_new_stream w w' /\
  ~ (forall w gum play k,
       video w <> None -> start_failure w gum play = Some k ->
       ~ holds_new_stream w (exec (startCamera gum play) w)).
Proof.
  cbn zeta.
  assert (Hnew : holds_new_stream a_page
                   (exec (startCamera (GumResolve [a_camera]) (PlayReject play_failed))
                         a_page)).
  { exists 0. repeat split. exists [a_camera]. reflexivity. }
  repeat split; try exact Hnew.
  intros H. eapply H; [| |exact Hnew]; [discriminate | reflexivity].
Qed.

(** C4, amended: every failure of [startCamera()] shows its failure
    text.  When the capture API is missing or [getUserMedia] rejects,
    the stream slot, the streams and the video element are as before.
    When [video.play()] rejects after [getUserMedia] resolved, the slot
    holds the stream just acquired, which is bound to the video
    element. *)
Theorem start_failure_report (gum : GumOutcome) (play : PlayOutcome) (w : World)
    (v : Video) (k : Failure) :
  video w = Some v ->
  start_failure w gum play = Some k ->
  let w' := exec (startCamera gum play) w in
  result (startCamera gum play) w = Normal tt /\
  status w' = (fun _ => failure_text k) <$> status w /\
  match k with
  | PlaybackRejected tracks _ =>
      streamRef w' = Some (length (streams w)) /\
      streams w' = streams w ++ [tracks] /\
      video w' = Some (mkVideo (videoWidth v) (videoHeight v)
                               (Some (length (streams w))) (paused v))
  | _ =>
      streamRef w' = streamRef w /\ streams w' = streams w /\ video w' = video w
  end.
Proof.
  intros Hv Hk. unfold start_failure in Hk.
  destruct w as [v0 c s md r h t l tr]; cbn in Hv, Hk; subst v0.
  unfold result, exec, startCamera; cbn.
  destruct md; cbn in *.
  1, 2: injection Hk as <-; destruct s; repeat split.
  destruct gum as [tracks|e].
  - destruct play as [|e]; [discriminate|]. injection Hk as <-.
    destruct s; repeat split.
  - injection Hk as <-. destruct s; repeat split.
Qed.

Lemma start_failure_report_witness :
  streamRef (exec (startCamera (GumReject permission_denied) PlayResolve) a_page)
  = None /\
  streamRef (exec (startCamera (GumResolve [a_camera]) (PlayReject play_failed)) a_page)
  = Some 0.
Proof.
  split.
  - apply (start_failure_report (GumReject permission_denied) PlayResolve a_page
             a_video (AcquisitionRejected permission_denied) eq_refl eq_refl).
  - apply (start_failure_report (GumResolve [a_camera]) (PlayReject play_failed) a_page
             a_video (PlaybackRejected [a_camera] play_failed) eq_refl eq_refl).
Defined.

(** ** The stream slot *)

(** How the monad's combinators keep a reflexive and transitive
    relation. *)
Section Frame.

Variable R : World -> World -> Prop.
Hypothesis R_refl : forall w, R w w.
Hypothesis R_trans : forall w1 w2 w3, R w1 w2 -> R w2 w3 -> R w1 w3.

Lemma preserves_ret {A} (a : A) : preserves R (ret a).
Proof. intros w. apply R_refl. Qed.

Lemma preserves_throw {A} (e : JsError) : preserves R (@throw A e).
Proof. intros w. apply R_refl. Qed.

Lemma preserves_lift {A} (c : Completion A) : preserves R (lift c).
Proof. intros w. apply R_refl. Qed.

Lemma preserves_modify (f : World -> World) :
  (forall w, R w (f w)) -> preserves R (modify f).
Proof. intros H w. apply H. Qed.

Lemma preserves_bind {A B} (m : M A) (k : A -> M B) :
  preserves R m -> (forall a, preserves R (k a)) -> preserves R (bind m k).
Proof.
  intros Hm Hk w. specialize (Hm w). unfold exec, bind in *.
  destruct (m w) as [[a|e] w1]; cbn in *; [|exact Hm].
  eapply R_trans; [exact Hm | apply Hk].
Qed.

Lemma preserves_try_catch {A} (body : M A) (handler : JsError -> M A) :
  preserves R body -> (forall e, preserves R (handler e)) ->
  preserves R (try_catch body handler).
Proof.
  intros Hb Hh w. specialize (Hb w). unfold exec, try_catch in *.
  destruct (body w) as [[a|e] w1]; cbn in *; [exact Hb|].
  eapply R_trans; [exact Hb | apply Hh].
Qed.

Lemma preserves_if_status (rhs : M string) :
  (forall text w, R w (with_status (Some text) w)) ->
  preserves R rhs -> preserves R (if_status rhs).
Proof.
  intros Hs Hr w. unfold exec, if_status.
  destruct (status w); [|apply R_refl].
  apply (preserves_bind rhs (fun text => modify (with_status (Some text))) Hr).
  intros text. apply preserves_modify. apply Hs.
Qed.

Lemma preserves_ite {A} (b : bool) (m1 m2 : M A) :
  preserves R m1 -> preserves R m2 -> preserves R (if b then m1 else m2).
Proof. destruct b; auto. Qed.

Lemma preserves_response_json (r : Response) : preserves R (response_json r).
Proof.
  unfold response_json. destruct (parsed_of r);
    [apply preserves_ret | apply preserves_throw].
Qed.

End Frame.

(** Takes a program apart along its binds, conditionals and handlers. *)
Ltac frame Rrefl Rtrans :=
  repeat first
    [ apply (preserves_ret _ Rrefl)
    | apply (preserves_throw _ Rrefl)
    | apply (preserves_lift _ Rrefl)
    | apply (preserves_response_json _ Rrefl)
    | apply (preserves_bind _ Rtrans)
    | apply (preserves_try_catch _ Rtrans)
    | apply preserves_ite
    | apply (preserves_if_status _ Rrefl Rtrans)
    | match goal with |- preserves _ (modify _) => apply preserves_modify end
    | match goal with |- forall _, _ => intro end ].

Lemma same_slot_refl (w : World) : same_slot w w.
Proof. reflexivity. Qed.

Lemma same_slot_trans (w1 w2 w3 : World) :
  same_slot w1 w2 -> same_slot w2 w3 -> same_slot w1 w3.
Proof. unfold same_slot. congruence. Qed.

Lemma stopCamera_same_slot : preserves same_slot stopCamera.
Proof.
  intros w. unfold exec. rewrite stopCamera_run. apply stopped_frame.
Qed.

Lemma capture_same_slot (jpeg : string) : preserves same_slot (captureImageBase64 jpeg).
Proof. intros w. destruct (capture_frame jpeg w) as [c ->]. reflexivity. Qed.

Lemma fetch_same_slot (endpoint img : string) (net : FetchOutcome) :
  preserves same_slot (fetch endpoint img net).
Proof. intros w. unfold exec, fetch. destruct net; reflexivity. Qed.

Lemma schedule_same_slot (d : option N) : preserves same_slot (schedule_redirect d).
Proof. intros w. destruct d; reflexivity. Qed.

Lemma submit_same_slot (ep : Endpoint) (jpeg : string) (net : FetchOutcome) :
  preserves same_slot (submit ep jpeg net).
Proof.
  unfold submit, on_response, on_error, console_error.
  frame same_slot_refl same_slot_trans;
    auto using capture_same_slot, fetch_same_slot, stopCamera_same_slot,
               schedule_same_slot;
    reflexivity.
Qed.

(** C10: [streamRef] is assigned by [startCamera()] alone, and only
    when [getUserMedia] resolved: after any other operation, and after
    a timer callback, the slot is what it was.  [stopCamera()] in
    particular leaves in the slot the stream it stopped: the slot still
    refers to it, and all its tracks have ended. *)
Theorem streamRef_written_by_startCamera (w : World) :
  (forall op, streamRef (run op w) = slot_after op w) /\
  (forall i, streamRef (fire i w) = streamRef w) /\
  (forall sid ts,
     streamRef w = Some sid -> streams w !! sid = Some ts ->
     streamRef (exec stopCamera w) = Some sid /\
     exists ts', streams (exec stopCamera w) !! sid = Some ts' /\
                 all_ended ts' /\ map label ts' = map label ts).
Proof.
  split; [|split].
  - intros [gum play| |jpeg|f jpeg net]; cbn [run slot_after].
    + unfold exec, startCamera.
      destruct w as [[v|] c s md r h t l tr], gum, play, md, s; reflexivity.
    + apply stopCamera_same_slot.
    + apply capture_same_slot.
    + unfold exec. rewrite run_flow_submit. apply submit_same_slot.
  - intros i. unfold fire. destruct (timers w !! i) as [[d [target]]|]; reflexivity.
  - intros sid ts Hs Hl. unfold exec. rewrite stopCamera_run; cbn [snd].
    split; [destruct (stopped_frame w) as (-> & _); exact Hs|].
    apply stopped_held; assumption.
Qed.

Lemma streamRef_written_by_startCamera_witness :
  streamRef (exec stopCamera a_live_page) = Some 0 /\
  exists ts', streams (exec stopCamera a_live_page) !! 0 = Some ts' /\
              all_ended ts' /\ map label ts' = map label [a_camera].
Proof.
  apply (proj2 (proj2 (streamRef_written_by_startCamera a_live_page)) 0 [a_camera]);
    reflexivity.
Defined.

(** ** Missing elements *)

Lemma quiet_app (tr1 tr2 : list Event) : quiet (tr1 ++ tr2) = quiet tr1 ++ quiet tr2.
Proof.
  induction tr1 as [|ev tr1 IH]; cbn; [reflexivity|].
  destruct (is_console ev); cbn; congruence.
Qed.

Lemma quiet_quiet (tr : list Event) : quiet (quiet tr) = quiet tr.
Proof.
  induction tr as [|ev tr IH]; cbn; [reflexivity|].
  destruct (is_console ev) eqn:E; cbn; [exact IH|]. rewrite E. congruence.
Qed.

Lemma quiet_stop_each (sid idx : nat) (ts : list MediaStreamTrack) :
  quiet (snd (stop_each sid idx ts)) = snd (stop_each sid idx ts).
Proof.
  pose proof (stop_each_events sid idx ts) as H.
  induction H as [|ev evs [i ->] _ IH]; cbn; congruence.
Qed.

Lemma silence_silence (w : World) : silence (silence w) = silence w.
Proof. unfold silence; cbn. rewrite quiet_quiet. reflexivity. Qed.

Lemma silence_with_status (s : option string) (w : World) :
  silence (with_status s w) = silence w.
Proof. reflexivity. Qed.

Lemma silence_write_status (text : string) (w : World) :
  silence (write_status text w) = silence w.
Proof. unfold write_status. destruct (status w); reflexivity. Qed.

Lemma write_status_silence (text : string) (w : World) :
  write_status text (silence w) = silence w.
Proof. reflexivity. Qed.

Lemma silence_emit (evs : list Event) (w : World) :
  silence (emit evs w) = emit (quiet evs) (silence w).
Proof. unfold silence, emit; cbn. rewrite quiet_app. reflexivity. Qed.

Lemma silence_console (x : Logged) (w : World) :
  silence (emit [EConsoleError x] w) = silence w.
Proof. rewrite silence_emit. apply emit_nil. Qed.

Lemma silence_stopped (w : World) : silence (stopped w) = stopped (silence w).
Proof.
  unfold stopped; cbn.
  destruct (streamRef w) as [sid|]; [|reflexivity].
  destruct (streams w !! sid) as [ts|]; [|reflexivity].
  rewrite silence_emit, quiet_stop_each. reflexivity.
Qed.

Lemma silence_schedule (d : option N) (w : World) :
  silence (exec (schedule_redirect d) w) = exec (schedule_redirect d) (silence w).
Proof.
  destruct d as [delay|]; [|reflexivity].
  unfold exec, schedule_redirect, setTimeout, modify; cbn [snd].
  rewrite silence_emit. reflexivity.
Qed.

Lemma capture_silence (jpeg : string) (w : World) :
  captureImageBase64 jpeg (silence w)
  = (result (captureImageBase64 jpeg) w, silence (exec (captureImageBase64 jpeg) w)).
Proof.
  unfold result, exec, captureImageBase64; cbn.
  destruct (video w) as [v|]; [|reflexivity].
  destruct (canvas w) as [c|]; [|reflexivity].
  destruct ((videoWidth v =? 0)%N || (videoHeight v =? 0)%N); [reflexivity|].
  destruct (context2d c); reflexivity.
Qed.

Lemma alike_refl (w : World) : alike w w.
Proof. reflexivity. Qed.

Lemma alike_trans (w1 w2 w3 : World) : alike w1 w2 -> alike w2 w3 -> alike w1 w3.
Proof. unfold alike. congruence. Qed.

Lemma console_error_alike (x : Logged) : preserves alike (console_error x).
Proof. intros w. apply silence_console. Qed.

Lemma on_error_alike (ep : Endpoint) (e : JsError) : preserves alike (on_error ep e).
Proof.
  unfold on_error. frame alike_refl alike_trans. apply console_error_alike.
Qed.

Lemma handled_accepts (ep : Endpoint) (r : Response) (w : World) :
  accepts r = true ->
  exec (handled ep r) w
  = exec (schedule_redirect (redirect_delay ep))
         (stopped (write_status (success_text ep) w)).
Proof.
  unfold accepts, handled, try_catch. destruct r as [st [data|e]]; [|discriminate].
  cbn [parsed_of]. intros [Hok Hget]%andb_prop.
  destruct (get_prop data F_ok) as [ok|e] eqn:E; [|discriminate].
  unfold exec at 1. rewrite (on_response_accepted _ _ _ _ _ Hok E Hget). reflexivity.
Qed.

Lemma handled_rejects (ep : Endpoint) (r : Response) (w : World) :
  accepts r = false -> alike w (exec (handled ep r) w).
Proof.
  unfold accepts, handled. destruct r as [st [data|e]]; cbn [parsed_of].
  - intros Hacc.
    assert (Hbranch : preserves alike
              (try_catch
                 (if_status (error <- lift (get_prop data F_error) ;;
                             lift (concat "❌ " (or_else error (fallback_text ep)))))
                 (on_error ep))).
    { frame alike_refl alike_trans; apply console_error_alike. }
    unfold exec, try_catch, on_response, bind, response_json, ret, lift; cbn [parsed_of].
    destruct (response_ok _); cbn [negb andb] in *.
    + destruct (get_prop data F_ok) as [ok|e].
      * rewrite Hacc; cbn [negb]. apply Hbranch.
      * apply on_error_alike.
    + apply Hbranch.
  - intros _. unfold exec. rewrite on_response_unparsable; cbn [snd].
    unfold alike. rewrite silence_write_status. apply silence_console.
Qed.

Lemma handled_silence (ep : Endpoint) (r : Response) (w : World) :
  silence (exec (handled ep r) w) = silence (exec (handled ep r) (silence w)).
Proof.
  destruct (accepts r) eqn:Hacc.
  - rewrite !(handled_accepts _ _ _ Hacc).
    rewrite !silence_schedule, !silence_stopped, !silence_write_status, silence_silence.
    reflexivity.
  - rewrite (handled_rejects ep r w Hacc), (handled_rejects ep r (silence w) Hacc).
    symmetry. apply silence_silence.
Qed.

Lemma sent_silence (ep : Endpoint) (jpeg img : string) (w : World) :
  sent ep jpeg img (silence w) = silence (sent ep jpeg img w).
Proof.
  unfold sent, exec. rewrite capture_silence; cbn [snd].
  rewrite silence_emit, silence_write_status. reflexivity.
Qed.

Lemma submit_capture_throws (ep : Endpoint) (jpeg : string) (net : FetchOutcome)
    (w : World) (e : JsError) :
  result (captureImageBase64 jpeg) w = Throw e ->
  submit ep jpeg net w = (Throw e, exec (captureImageBase64 jpeg) w).
Proof.
  unfold result, exec, submit, bind.
  destruct (captureImageBase64 jpeg w) as [r w1]; cbn. intros ->. reflexivity.
Qed.

Lemma submit_silence (ep : Endpoint) (jpeg : string) (net : FetchOutcome) (w : World) :
  silence (exec (submit ep jpeg net) w)
  = silence (exec (submit ep jpeg net) (silence w)).
Proof.
  pose proof (capture_silence jpeg w) as Hc.
  assert (Hr : result (captureImageBase64 jpeg) (silence w)
               = result (captureImageBase64 jpeg) w)
    by (unfold result at 1; rewrite Hc; reflexivity).
  assert (He : exec (captureImageBase64 jpeg) (silence w)
               = silence (exec (captureImageBase64 jpeg) w))
    by (unfold exec at 1; rewrite Hc; reflexivity).
  destruct (result (captureImageBase64 jpeg) w) as [image|e] eqn:E.
  - destruct (falsy_image image) eqn:Hf.
    + unfold exec.
      rewrite (submit_no_image _ _ _ _ _ E Hf), (submit_no_image _ _ _ _ _ Hr Hf).
      cbn [snd]. rewrite He, !silence_write_status, silence_silence. reflexivity.
    + destruct image as [img|]; [|discriminate].
      unfold exec.
      rewrite (submit_with_image _ _ _ _ _ E Hf), (submit_with_image _ _ _ _ _ Hr Hf).
      rewrite sent_silence. destruct net as [st parsed|e].
      * apply (handled_silence ep (mkResponse st parsed)).
      * pose proof (on_error_alike ep e (sent ep jpeg img w)) as H1.
        pose proof (on_error_alike ep e (silence (sent ep jpeg img w))) as H2.
        unfold alike, exec in H1, H2. rewrite H1, H2.
        symmetry. apply silence_silence.
  - unfold exec.
    rewrite (submit_capture_throws _ _ _ _ _ E), (submit_capture_throws _ _ _ _ _ Hr).
    cbn [snd]. rewrite He. symmetry. apply silence_silence.
Qed.

Lemma run_silence (op : Op) (w : World) :
  silence (run op w) = silence (run op (silence w)).
Proof.
  destruct op as [gum play| |jpeg|f jpeg net]; cbn [run].
  - unfold exec, startCamera.
    destruct w as [[v|] c s md r h t l tr], gum, play, md, s; cbn;
      unfold silence; cbn; rewrite ?quiet_app, ?quiet_quiet; reflexivity.
  - unfold exec. rewrite !stopCamera_run; cbn [snd].
    rewrite !silence_stopped, silence_silence. reflexivity.
  - unfold exec at 2. rewrite capture_silence; cbn [snd].
    symmetry. apply silence_silence.
  - unfold exec. rewrite !run_flow_submit. apply submit_silence.
Qed.

(** C9, as stated, fails for [captureImageBase64()]: without a video
    (or canvas) element it returns [null] and nothing is logged, and a
    submit flow that calls it logs nothing either. *)
Lemma capture_aborts_without_diagnostic :
  captureImageBase64 a_jpeg a_page_without_video
  = (Normal None, a_page_without_video) /\
  trace (exec (captureAndRegister a_jpeg an_accepted_response)
              a_page_without_canvas) = [] /\
  ~ (forall jpeg w,
       video w = None \/ canvas w = None ->
       exists x, EConsoleError x ∈ trace (exec (captureImageBase64 jpeg) w)).
Proof.
  split; [reflexivity|]. split; [reflexivity|].
  intros H.
  destruct (H a_jpeg a_page_without_video
              (or_introl eq_refl)) as [x Hx].
  cbn in Hx. apply elem_of_nil in Hx. exact Hx.
Qed.

(** C9, amended: without the video element [startCamera()] logs
    "Video element not found." and returns, changing nothing else.
    Without the video or the canvas element [captureImageBase64()]
    returns [null] and changes nothing, console included, and every
    submit flow then shows the warning and returns.  Without the status
    element every operation does what it does with it, up to the status
    text and the console: requests, track stops, timers, the stream
    slot and the elements end up the same. *)
Theorem missing_elements (w : World) :
  (video w = None ->
   forall gum play,
     startCamera gum play w
     = (Normal tt, emit [EConsoleError (LogText "Video element not found.")] w)) /\
  (video w = None \/ canvas w = None ->
   forall jpeg,
     captureImageBase64 jpeg w = (Normal None, w) /\
     forall f net,
       run_flow f jpeg net w
       = (Normal tt, write_status "⚠ Please start camera first." w)) /\
  (forall op, silence (run op (with_status None w)) = silence (run op w)).
Proof.
  split; [|split].
  - intros Hv gum play. unfold startCamera. rewrite Hv. reflexivity.
  - intros Hmiss jpeg.
    assert (Hc : captureImageBase64 jpeg w = (Normal None, w)).
    { unfold captureImageBase64. destruct Hmiss as [-> | ->]; [reflexivity|].
      destruct (video w); reflexivity. }
    split; [exact Hc|]. intros f net.
    rewrite run_flow_submit.
    rewrite (submit_no_image _ _ _ _ None); unfold result, exec; rewrite ?Hc; reflexivity.
  - intros op.
    rewrite (run_silence op (with_status None w)), (run_silence op w).
    reflexivity.
Qed.

Lemma missing_elements_witness :
  startCamera (GumResolve [a_camera]) PlayResolve a_page_without_video
  = (Normal tt, emit [EConsoleError (LogText "Video element not found.")]
                     a_page_without_video) /\
  captureImageBase64 a_jpeg a_page_without_canvas
  = (Normal None, a_page_without_canvas).
Proof.
  split.
  - apply (proj1 (missing_elements a_page_without_video) eq_refl).
  - apply (proj1 (proj2 (missing_elements a_page_without_canvas))
                 (or_intror eq_refl) a_jpeg).
Defined.

Example status_absent_corner :
  let bad := FetchResolve 500 (BodyJson JNull) in
  trace (exec (captureAndLogin a_jpeg bad) a_live_page)
  = [EFetch (request (endpoint Login) a_jpeg);
     EConsoleError (LogError (TypeError "Cannot read properties of null (reading 'error')"))]
  /\ trace (exec (captureAndLogin a_jpeg bad) (with_status None a_live_page))
     = [EFetch (request (endpoint Login) a_jpeg)].
Proof. split; reflexivity. Qed.

(** * Further properties *)

(** ** The camera life cycle *)

(** X1: when the video element exists, [getUserMedia] is available and
    resolves, and playback starts, [startCamera()] returns with the new
    stream appended to the heap, the slot and [video.srcObject] both
    referring to it, the video playing, the success text shown and one
    camera request on the trace; the canvas, the timers and the
    location are as before. *)
Theorem startCamera_binds_stream (tracks : MediaStream) (w : World) (v : Video) :
  video w = Some v ->
  mediaDevices w = HasGetUserMedia ->
  startCamera (GumResolve tracks) PlayResolve w
  = (Normal tt,
     mkWorld (Some (mkVideo (videoWidth v) (videoHeight v)
                            (Some (length (streams w))) false))
             (canvas w)
             ((fun _ => "✅ Camera started successfully.") <$> status w)
             HasGetUserMedia
             (Some (length (streams w)))
             (streams w ++ [tracks])
             (timers w) (location w)
             (trace w ++ [EGetUserMedia "user" false])) /\
  (streams w ++ [tracks]) !! length (streams w) = Some tracks.
Proof.
  intros Hv Hmd. split.
  - destruct w as [v0 c s md r h t l tr]; cbn in Hv, Hmd; subst v0 md.
    unfold startCamera; cbn. destruct s; reflexivity.
  - apply list_lookup_middle. reflexivity.
Qed.

Lemma startCamera_binds_stream_witness :
  streamRef (exec (startCamera (GumResolve [a_camera]) PlayResolve) a_page) = Some 0 /\
  (video (exec (startCamera (GumResolve [a_camera]) PlayResolve) a_page)
   ≫= srcObject) = Some 0.
Proof.
  unfold exec.
  rewrite (proj1 (startCamera_binds_stream [a_camera] a_page a_video eq_refl eq_refl)).
  split; reflexivity.
Defined.

(** X2: whatever the outcomes, [startCamera()] adds to the trace a
    console entry alone when the video element is missing, nothing when
    the capture API is missing, and otherwise one camera request (front
    camera, no audio) followed by the error it caught, if it caught
    one. *)
Theorem startCamera_trace (gum : GumOutcome) (play : PlayOutcome) (w : World) :
  trace (exec (startCamera gum play) w) = trace w ++ start_events w gum play.
Proof.
  unfold exec, startCamera, start_events.
  destruct w as [[v|] c s md r h t l tr], gum, play, md, s; cbn;
    rewrite <- ?app_assoc, ?app_nil_r; reflexivity.
Qed.

(** X3: [startCamera()] never touches a stream that is already in the
    heap and never ends a track; started again while a stream is held,
    it moves the slot to the new stream, so that a following
    [stopCamera()] leaves the tracks of the previous stream as they
    were. *)
Theorem restart_leaks_previous_stream (gum : GumOutcome) (play : PlayOutcome)
    (w : World) (old : nat) (ts : MediaStream) :
  streams w !! old = Some ts ->
  streams (exec (startCamera gum play) w) !! old = Some ts /\
  (forall v tracks,
     video w = Some v -> mediaDevices w = HasGetUserMedia ->
     gum = GumResolve tracks ->
     streamRef (exec (startCamera gum play) w) = Some (length (streams w)) /\
     length (streams w) <> old /\
     streams (exec stopCamera (exec (startCamera gum play) w)) !! old = Some ts).
Proof.
  intros Hold.
  assert (Hlt : old < length (streams w)) by (eapply lookup_lt_Some; eassumption).
  assert (Hkeep : streams (exec (startCamera gum play) w) !! old = Some ts).
  { unfold exec, startCamera.
    destruct w as [[v|] c s md r h t l tr], gum, play, md, s; cbn in *;
      try assumption; apply lookup_app_l_Some; assumption. }
  split; [exact Hkeep|].
  intros v tracks Hv Hmd ->.
  assert (Hslot : streamRef (exec (startCamera (GumResolve tracks) play) w)
                  = Some (length (streams w))).
  { unfold exec, startCamera.
    destruct w as [v0 c s md r h t l tr]; cbn in Hv, Hmd; subst v0 md.
    destruct play, s; reflexivity. }
  split; [exact Hslot|]. split; [lia|].
  unfold exec at 1. rewrite stopCamera_run; cbn [snd]. unfold stopped.
  rewrite Hslot.
  destruct (streams (exec (startCamera (GumResolve tracks) play) w)
              !! length (streams w)) as [ts'|]; [|exact Hkeep].
  cbn. rewrite list_lookup_insert_ne by lia. exact Hkeep.
Qed.

Lemma restart_leaks_previous_stream_witness :
  streams (exec stopCamera
             (exec (startCamera (GumResolve [mkTrack "back camera" Live]) PlayResolve)
                   a_live_page)) !! 0
  = Some [a_camera].
Proof.
  apply (proj2 (restart_leaks_previous_stream
                  (GumResolve [mkTrack "back camera" Live]) PlayResolve
                  a_live_page 0 [a_camera] eq_refl)
               (mkVideo 640 480 (Some 0) false) [mkTrack "back camera" Live]
               eq_refl eq_refl eq_refl).
Defined.

Lemma stop_each_exact (sid idx : nat) (ts : list MediaStreamTrack) :
  stop_each sid idx ts
  = (map (fun t => mkTrack (label t) Ended) ts,
     map (ETrackEnded sid) (live_from idx ts)).
Proof.
  revert idx. induction ts as [|t rest IH]; intros idx; cbn; [reflexivity|].
  rewrite IH. unfold track_stop. destruct t as [lbl [|]]; reflexivity.
Qed.

Lemma stopped_exact (w : World) (sid : nat) (ts : MediaStream) :
  streamRef w = Some sid ->
  streams w !! sid = Some ts ->
  stopped w
  = emit (map (ETrackEnded sid) (live_from 0 ts))
         (with_streams (<[sid := map (fun t => mkTrack (label t) Ended) ts]> (streams w)) w).
Proof.
  intros Href Hts. unfold stopped. rewrite Href, Hts, stop_each_exact. reflexivity.
Qed.

(** X4: [stopCamera()] changes the held stream and the trace and
    nothing else: the elements, the status text, the capture API, the
    timers and the location are as before, no stream is added or
    removed, and every stream other than the held one keeps its
    tracks. *)
Theorem stopCamera_touches_held_stream_only (w : World) :
  video (exec stopCamera w) = video w /\
  canvas (exec stopCamera w) = canvas w /\
  status (exec stopCamera w) = status w /\
  mediaDevices (exec stopCamera w) = mediaDevices w /\
  timers (exec stopCamera w) = timers w /\
  location (exec stopCamera w) = location w /\
  length (streams (exec stopCamera w)) = length (streams w) /\
  (forall sid, streamRef w <> Some sid ->
               streams (exec stopCamera w) !! sid = streams w !! sid).
Proof.
  unfold exec. rewrite stopCamera_run; cbn [snd]. unfold stopped.
  destruct (streamRef w) as [held|] eqn:Href; [|repeat split].
  destruct (streams w !! held) as [ts|] eqn:Hts; [|repeat split].
  cbn. rewrite length_insert. repeat split.
  intros sid Hne. apply list_lookup_insert_ne. congruence.
Qed.

Lemma stopCamera_touches_held_stream_only_witness :
  streams (exec stopCamera two_streams) !! 0 = Some [a_camera].
Proof.
  rewrite (proj2 (proj2 (proj2 (proj2 (proj2 (proj2 (proj2
             (stopCamera_touches_held_stream_only two_streams))))))) 0).
  - reflexivity.
  - discriminate.
Defined.

(** X5: [stopCamera()] with a stream held ends every track of it,
    labels kept, and adds to the trace one release per track that was
    live, in track order; a track that had already ended is not released
    again. *)
Theorem stopCamera_releases_live_tracks (w : World) (sid : nat) (ts : MediaStream) :
  streamRef w = Some sid ->
  streams w !! sid = Some ts ->
  streams (exec stopCamera w) !! sid = Some (map (fun t => mkTrack (label t) Ended) ts) /\
  trace (exec stopCamera w) = trace w ++ map (ETrackEnded sid) (live_from 0 ts).
Proof.
  intros Href Hts. unfold exec. rewrite stopCamera_run; cbn [snd].
  rewrite (stopped_exact w sid ts Href Hts); cbn. split; [|reflexivity].
  apply list_lookup_insert_eq. eapply lookup_lt_Some; eassumption.
Qed.

Lemma stopCamera_releases_live_tracks_witness :
  trace (exec stopCamera
           (with_streamRef (Some 0)
              (with_streams [[mkTrack "ended" Ended; a_camera]] a_page)))
  = [ETrackEnded 0 1].
Proof.
  apply (stopCamera_releases_live_tracks
           (with_streamRef (Some 0)
              (with_streams [[mkTrack "ended" Ended; a_camera]] a_page))
           0 [mkTrack "ended" Ended; a_camera] eq_refl eq_refl).
Defined.

(** X6: once [getUserMedia] resolved, whether playback started or
    failed, a following [stopCamera()] ends every track of the stream
    just acquired and releases those that were live; the slot and
    [video.srcObject] keep referring to the ended stream. *)
Theorem start_then_stop (tracks : MediaStream) (play : PlayOutcome) (w : World)
    (v : Video) :
  video w = Some v ->
  mediaDevices w = HasGetUserMedia ->
  let w' := exec stopCamera (exec (startCamera (GumResolve tracks) play) w) in
  streams w' = streams w ++ [map (fun t => mkTrack (label t) Ended) tracks] /\
  trace w' = trace w ++ start_events w (GumResolve tracks) play
                     ++ map (ETrackEnded (length (streams w))) (live_from 0 tracks) /\
  streamRef w' = Some (length (streams w)) /\
  (video w' ≫= srcObject) = Some (length (streams w)).
Proof.
  intros Hv Hmd w'. subst w'.
  set (w1 := exec (startCamera (GumResolve tracks) play) w).
  assert (H1 : streamRef w1 = Some (length (streams w)) /\
               streams w1 = streams w ++ [tracks] /\
               (video w1 ≫= srcObject) = Some (length (streams w)) /\
               trace w1 = trace w ++ start_events w (GumResolve tracks) play).
  { subst w1. unfold exec, startCamera, start_events.
    destruct w as [v0 c s md r h t l tr]; cbn in Hv, Hmd; subst v0 md.
    destruct play, s; cbn; rewrite <- ?app_assoc; repeat split. }
  destruct H1 as (Href & Hstr & Hsrc & Htr).
  assert (Hl : streams w1 !! length (streams w) = Some tracks).
  { rewrite Hstr. apply list_lookup_middle. reflexivity. }
  unfold exec at 1 2 3 4. rewrite stopCamera_run; cbn [snd].
  rewrite (stopped_exact w1 _ _ Href Hl); cbn.
  rewrite Hstr, Htr, Href, <- app_assoc. repeat split; [|exact Hsrc].
  generalize (streams w) as h. intros h.
  induction h as [|x h IH]; cbn; [reflexivity|]. f_equal. exact IH.
Qed.

Lemma start_then_stop_witness :
  streams (exec stopCamera
             (exec (startCamera (GumResolve [a_camera]) (PlayReject play_failed)) a_page))
  = [[mkTrack "front camera" Ended]].
Proof.
  apply (start_then_stop [a_camera] (PlayReject play_failed) a_page a_video
           eq_refl eq_refl).
Defined.

(** ** The outcome of a submit *)

Lemma refusal_run (ep : Endpoint) (data : json) (w : World) :
  try_catch
    (if_status (error <- lift (get_prop data F_error) ;;
                lift (concat "❌ " (or_else error (fallback_text ep)))))
    (on_error ep) w
  = (Normal tt, settle ep (refusal ep data) w).
Proof.
  unfold try_catch, if_status, refusal, settle, caught, write_status, bind, lift, modify.
  destruct (status w) eqn:Hs.
  - destruct (get_prop data F_error) as [err|e]; [|apply on_error_run].
    destruct (concat _ _) as [text|e]; [reflexivity | apply on_error_run].
  - destruct (get_prop data F_error) as [err|e]; [|reflexivity].
    destruct (concat _ _); reflexivity.
Qed.

(** From the response on, a flow does what the verdict says. *)
Lemma handled_settles (ep : Endpoint) (r : Response) (w : World) :
  handled ep r w = (Normal tt, settle ep (verdict ep r) w).
Proof.
  destruct (accepts r) eqn:Hacc.
  - pose proof (handled_accepts ep r w Hacc) as H. unfold exec at 1 in H.
    assert (Hv : verdict ep r = Accepted).
    { unfold accepts, verdict in *. destruct (parsed_of r) as [data|e]; [|discriminate].
      apply andb_prop in Hacc as [-> Ht].
      destruct (get_prop data F_ok); [rewrite Ht; reflexivity | discriminate]. }
    rewrite Hv. cbn [settle]. rewrite <- H.
    unfold handled, try_catch. destruct r as [st [data|e]]; [|discriminate].
    unfold accepts in Hacc; cbn [parsed_of] in Hacc.
    apply andb_prop in Hacc as [Hok Ht].
    destruct (get_prop data F_ok) as [ok|e] eqn:E; [|discriminate].
    rewrite (on_response_accepted _ _ _ _ _ Hok E Ht). reflexivity.
  - unfold accepts, verdict in *. destruct r as [st [data|e]]; cbn [parsed_of] in *.
    + pose proof (refusal_run ep data w) as Href.
      unfold handled, try_catch, on_response, bind, response_json, ret, lift in *;
        cbn [parsed_of].
      destruct (response_ok _); cbn [negb andb] in *.
      * destruct (get_prop data F_ok) as [ok|e].
        -- rewrite Hacc; cbn [negb]. exact Href.
        -- apply on_error_run.
      * exact Href.
    + unfold handled. apply on_response_unparsable.
Qed.

(** A flow that captured a frame ends in the world its verdict leads
    to, starting from the world in which the request has left. *)
Lemma run_flow_settles (f : Flow) (jpeg : string) (net : FetchOutcome) (w : World)
    (img : string) :
  result (captureImageBase64 jpeg) w = Normal (Some img) ->
  falsy_image (Some img) = false ->
  run_flow f jpeg net w
  = (Normal tt, settle (endpoint f) (net_verdict (endpoint f) net)
                       (sent (endpoint f) jpeg img w)).
Proof.
  intros Hr Hf. rewrite run_flow_submit, (submit_with_image _ _ _ _ _ Hr Hf).
  destruct net as [st parsed|e]; cbn [net_verdict settle].
  - apply (handled_settles (endpoint f) (mkResponse st parsed)).
  - apply on_error_run.
Qed.

Lemma caught_frame (ep : Endpoint) (e : JsError) (w : World) :
  status (caught ep e w) = (fun _ => server_error_text ep) <$> status w /\
  streamRef (caught ep e w) = streamRef w /\
  streams (caught ep e w) = streams w /\
  timers (caught ep e w) = timers w /\
  location (caught ep e w) = location w /\
  trace (caught ep e w) = trace w ++ [EConsoleError (LogError e)].
Proof.
  unfold caught. rewrite status_write_status.
  destruct (write_status_frame (server_error_text ep)
              (emit [EConsoleError (LogError e)] w)) as (-> & -> & -> & -> & ->).
  repeat split.
Qed.

Lemma alike_fields (w w' : World) :
  alike w w' ->
  video w' = video w /\ canvas w' = canvas w /\
  streamRef w' = streamRef w /\ streams w' = streams w /\
  timers w' = timers w /\ location w' = location w /\
  quiet (trace w') = quiet (trace w).
Proof.
  unfold alike, silence. intros H. injection H as -> -> _ -> -> -> -> ->.
  repeat split.
Qed.

Lemma verdict_accepts (ep : Endpoint) (r : Response) :
  accepts r = false -> verdict ep r <> Accepted.
Proof.
  unfold accepts, verdict, refusal. destruct (parsed_of r) as [data|e]; [|discriminate].
  destruct (response_ok r); cbn [andb].
  - destruct (get_prop data F_ok) as [ok|e]; [|discriminate].
    intros ->. destruct (get_prop data F_error); [destruct (concat _ _)|]; discriminate.
  - intros _. destruct (get_prop data F_error); [destruct (concat _ _)|]; discriminate.
Qed.

Lemma settle_alike (ep : Endpoint) (v : Verdict) (w : World) :
  v <> Accepted -> alike w (settle ep v w).
Proof.
  unfold alike, settle, caught. destruct v as [|text|e|e]; intros Hv.
  - contradiction.
  - apply silence_write_status.
  - rewrite silence_write_status. apply silence_console.
  - destruct (status w); [|reflexivity].
    rewrite silence_write_status. apply silence_console.
Qed.

(** X7: in every flow that captured a frame, a request that fails in
    transport (fetch rejects, or the body does not parse) is reported
    with the server-error text of the flow and logged with the error
    that was caught; the request is the only other event, and the slot,
    the streams and the timers are as before. *)
Theorem transport_error_reported (f : Flow) (jpeg : string) (w : World) (img : string)
    (net : FetchOutcome) (e : JsError) :
  result (captureImageBase64 jpeg) w = Normal (Some img) ->
  falsy_image (Some img) = false ->
  net = FetchReject e \/ (exists st, net = FetchResolve st (BodyReject e)) ->
  status (exec (run_flow f jpeg net) w) = (fun _ => server_error f) <$> status w /\
  trace (exec (run_flow f jpeg net) w)
  = trace w ++ [EFetch (mkRequest (path (endpoint f)) "POST" "application/json"
                                  (JObj [("image", JStr img)]));
                EConsoleError (LogError e)] /\
  streamRef (exec (run_flow f jpeg net) w) = streamRef w /\
  streams (exec (run_flow f jpeg net) w) = streams w /\
  timers (exec (run_flow f jpeg net) w) = timers w.
Proof.
  intros Hr Hf Hnet. unfold exec. rewrite (run_flow_settles _ _ _ _ _ Hr Hf); cbn [snd].
  assert (Hv : net_verdict (endpoint f) net = Failed e)
    by (destruct Hnet as [-> | [st ->]]; reflexivity).
  rewrite Hv; cbn [settle].
  destruct (caught_frame (endpoint f) e (sent (endpoint f) jpeg img w))
    as (-> & -> & -> & -> & _ & ->).
  destruct (sent_frame (endpoint f) jpeg img w) as (-> & -> & -> & _ & ->).
  rewrite status_sent, fmap_const_twice, <- app_assoc.
  repeat split. destruct f; reflexivity.
Qed.

Lemma transport_error_reported_witness :
  status (exec (run_flow VerifyVote a_jpeg
                  (FetchReject (mkError "TypeError" "Failed to fetch"))) a_live_page)
  = Some "❌ Server error during verification.".
Proof.
  apply (transport_error_reported VerifyVote a_jpeg a_live_page a_jpeg
           (FetchReject (mkError "TypeError" "Failed to fetch"))
           (mkError "TypeError" "Failed to fetch") eq_refl eq_refl
           (or_introl eq_refl)).
Defined.

(** X8: a body that parses to [null] is reported like a transport
    error, with the server-error text of the flow and not with its
    fallback text, whatever the HTTP status; the slot, the streams and
    the timers are as before. *)
Theorem null_body_reported_as_server_error (f : Flow) (jpeg : string) (w : World)
    (img : string) (st : N) :
  result (captureImageBase64 jpeg) w = Normal (Some img) ->
  falsy_image (Some img) = false ->
  let w' := exec (run_flow f jpeg (FetchResolve st (BodyJson JNull))) w in
  status w' = (fun _ => server_error f) <$> status w /\
  streamRef w' = streamRef w /\ streams w' = streams w /\ timers w' = timers w.
Proof.
  intros Hr Hf w'. subst w'. unfold exec.
  rewrite (run_flow_settles _ _ _ _ _ Hr Hf); cbn [snd net_verdict].
  set (w1 := sent (endpoint f) jpeg img w).
  assert (Hst : status w1 = (fun _ => progress_text (endpoint f)) <$> status w)
    by apply status_sent.
  destruct (sent_frame (endpoint f) jpeg img w) as (Hr1 & Hs1 & Ht1 & _).
  fold w1 in Hr1, Hs1, Ht1.
  assert (Hcaught : forall e,
            status (caught (endpoint f) e w1) = (fun _ => server_error f) <$> status w /\
            streamRef (caught (endpoint f) e w1) = streamRef w /\
            streams (caught (endpoint f) e w1) = streams w /\
            timers (caught (endpoint f) e w1) = timers w).
  { intros e. destruct (caught_frame (endpoint f) e w1) as (-> & -> & -> & -> & _).
    rewrite Hst, fmap_const_twice. repeat split; try assumption.
    destruct f; reflexivity. }
  unfold verdict, refusal; cbn [parsed_of get_prop].
  destruct (response_ok _); cbn [settle]; [apply Hcaught|].
  destruct (status w1) eqn:E; [apply Hcaught|].
  rewrite E. destruct (status w); [discriminate|]. repeat split; assumption.
Qed.

Lemma null_body_reported_as_server_error_witness :
  status (exec (run_flow Login a_jpeg (FetchResolve 200 (BodyJson JNull))) a_live_page)
  = Some "❌ Server error during login.".
Proof.
  apply (null_body_reported_as_server_error Login a_jpeg a_live_page a_jpeg 200
           eq_refl eq_refl).
Defined.

(** X9: a body that parses to a boolean, a number, a string or an
    array has neither [ok] nor [error]: whatever the HTTP status, the
    flow shows the cross mark with its fallback text, adds only the
    request to the trace and leaves the slot, the streams and the timers
    as they were. *)
Theorem plain_body_refused (f : Flow) (jpeg : string) (w : World) (img : string)
    (st : N) (data : json) :
  result (captureImageBase64 jpeg) w = Normal (Some img) ->
  falsy_image (Some img) = false ->
  plain_value data = true ->
  let w' := exec (run_flow f jpeg (FetchResolve st (BodyJson data))) w in
  status w' = (fun _ => "❌ " +:+ fallback f) <$> status w /\
  trace w' = trace w ++ [EFetch (mkRequest (path (endpoint f)) "POST" "application/json"
                                           (JObj [("image", JStr img)]))] /\
  streamRef w' = streamRef w /\ streams w' = streams w /\ timers w' = timers w.
Proof.
  intros Hr Hf Hp w'. subst w'. unfold exec.
  rewrite (run_flow_settles _ _ _ _ _ Hr Hf); cbn [snd net_verdict].
  assert (Hv : verdict (endpoint f) (mkResponse st (BodyJson data))
               = Refused ("❌ " +:+ fallback f)).
  { unfold verdict, refusal; cbn [parsed_of].
    destruct data; try discriminate; destruct (response_ok _), f; reflexivity. }
  rewrite Hv; cbn [settle]. rewrite status_write_status, status_sent, fmap_const_twice.
  destruct (write_status_frame ("❌ " +:+ fallback f) (sent (endpoint f) jpeg img w))
    as (-> & -> & -> & _ & ->).
  destruct (sent_frame (endpoint f) jpeg img w) as (-> & -> & -> & _ & ->).
  repeat split.
Qed.

Lemma plain_body_refused_witness :
  status (exec (run_flow Register a_jpeg (FetchResolve 200 (BodyJson (JStr "ok"))))
               a_live_page)
  = Some "❌ Registration failed.".
Proof.
  apply (plain_body_refused Register a_jpeg a_live_page a_jpeg 200 (JStr "ok")
           eq_refl eq_refl eq_refl).
Defined.



(** X11: unless the response is accepted (2xx status and a truthy
    [ok]), a flow that captured a frame leaves the camera running and
    schedules nothing: the slot, the streams, the timers and the
    location are as before, and apart from console entries the trace
    gains the request alone.  A body with [ok: true] under a failing
    HTTP status is such a response. *)
Theorem refused_keeps_camera (f : Flow) (jpeg : string) (w : World) (img : string)
    (net : FetchOutcome) :
  result (captureImageBase64 jpeg) w = Normal (Some img) ->
  falsy_image (Some img) = false ->
  net_accepted net = false ->
  let w' := exec (run_flow f jpeg net) w in
  streamRef w' = streamRef w /\
  streams w' = streams w /\
  timers w' = timers w /\
  location w' = location w /\
  quiet (trace w')
  = quiet (trace w) ++ [EFetch (mkRequest (path (endpoint f)) "POST" "application/json"
                                          (JObj [("image", JStr img)]))].
Proof.
  intros Hr Hf Hacc w'. subst w'. unfold exec.
  rewrite (run_flow_settles _ _ _ _ _ Hr Hf); cbn [snd].
  assert (Hv : net_verdict (endpoint f) net <> Accepted).
  { destruct net as [st parsed|e]; [|discriminate].
    apply verdict_accepts. exact Hacc. }
  destruct (alike_fields _ _ (settle_alike (endpoint f) _
                                (sent (endpoint f) jpeg img w) Hv))
    as (_ & _ & -> & -> & -> & -> & ->).
  destruct (sent_frame (endpoint f) jpeg img w) as (-> & -> & -> & -> & ->).
  rewrite quiet_app. repeat split.
Qed.

Lemma refused_keeps_camera_witness :
  streams (exec (run_flow Register a_jpeg
                   (FetchResolve 500 (BodyJson (JObj [("ok", JBool true)]))))
                a_live_page)
  = [[a_camera]].
Proof.
  apply (refused_keeps_camera Register a_jpeg a_live_page a_jpeg
           (FetchResolve 500 (BodyJson (JObj [("ok", JBool true)])))
           eq_refl eq_refl eq_refl).
Defined.

(** X12: whatever the page and the outcome of the request, a submit
    flow adds to the trace either nothing, or one POST of the captured
    frame as JSON to its endpoint followed by nothing, or by one console
    entry for the error it caught, or by track releases and then the
    timer of the flow: never a second request, never a timer before the
    tracks are stopped. *)
Theorem flow_trace_shape (f : Flow) (jpeg : string) (net : FetchOutcome) (w : World) :
  exists evs,
    trace (exec (run_flow f jpeg net) w) = trace w ++ evs /\
    (evs = [] \/
     exists tail,
       evs = EFetch (mkRequest (path (endpoint f)) "POST" "application/json"
                               (JObj [("image", JStr jpeg)])) :: tail /\
       (tail = [] \/
        (exists e, tail = [EConsoleError (LogError e)]) \/
        (exists stops,
           tail = stops ++ schedule_events f /\
           Forall (fun ev => exists sid i, ev = ETrackEnded sid i) stops))).
Proof.
  destruct (capture_frame jpeg w) as [c Hc].
  destruct (result (captureImageBase64 jpeg) w) as [image|e] eqn:Hr.
  - destruct (falsy_image image) eqn:Hf.
    + exists []. split; [|left; reflexivity].
      unfold exec at 1. rewrite run_flow_submit, (submit_no_image _ _ _ _ _ Hr Hf).
      cbn [snd]. rewrite app_nil_r, Hc.
      destruct (write_status_frame warning_text (with_canvas c w)) as (_ & _ & _ & _ & ->).
      reflexivity.
    + destruct image as [img|]; [|discriminate].
      destruct (capture_some _ _ _ Hr) as (? & ? & _ & _ & _ & _ & _ & Himg & _).
      subst img.
      unfold exec at 1. rewrite (run_flow_settles _ _ _ _ _ Hr Hf); cbn [snd].
      destruct (sent_frame (endpoint f) jpeg jpeg w) as (_ & _ & _ & _ & Htr).
      set (w1 := sent (endpoint f) jpeg jpeg w) in *.
      assert (Hcaught : forall e,
                exists evs, trace (caught (endpoint f) e w1) = trace w ++ evs /\
                  (evs = [] \/ exists tail,
                     evs = EFetch (mkRequest (path (endpoint f)) "POST" "application/json"
                                             (JObj [("image", JStr jpeg)])) :: tail /\
                     (tail = [] \/
                      (exists e, tail = [EConsoleError (LogError e)]) \/
                      (exists stops,
                         tail = stops ++ schedule_events f /\
                         Forall (fun ev => exists sid i, ev = ETrackEnded sid i) stops)))).
      { intros e. eexists. split.
        - destruct (caught_frame (endpoint f) e w1) as (_ & _ & _ & _ & _ & ->).
          rewrite Htr, <- app_assoc. reflexivity.
        - right. eexists. split; [reflexivity|]. right. left. eauto. }
      assert (Hquiet : exists evs, trace w1 = trace w ++ evs /\
                  (evs = [] \/ exists tail,
                     evs = EFetch (mkRequest (path (endpoint f)) "POST" "application/json"
                                             (JObj [("image", JStr jpeg)])) :: tail /\
                     (tail = [] \/
                      (exists e, tail = [EConsoleError (LogError e)]) \/
                      (exists stops,
                         tail = stops ++ schedule_events f /\
                         Forall (fun ev => exists sid i, ev = ETrackEnded sid i) stops)))).
      { eexists. split; [exact Htr|]. right. eexists. split; [reflexivity|]. left.
        reflexivity. }
      destruct (net_verdict (endpoint f) net) as [|text|e|e]; cbn [settle].
      * set (w2 := write_status (success_text (endpoint f)) w1).
        destruct (write_status_frame (success_text (endpoint f)) w1)
          as (_ & _ & _ & _ & Htr2). fold w2 in Htr2.
        destruct (stopped_frame w2) as (_ & _ & _ & _ & _ & Htr3).
        exists ([EFetch (request (endpoint f) jpeg)] ++ stop_events w2 ++ schedule_events f).
        split.
        -- assert (Hs : trace (exec (schedule_redirect (redirect_delay (endpoint f)))
                                    (stopped w2))
                        = trace (stopped w2) ++ schedule_events f).
           { destruct f; cbn; rewrite ?app_nil_r; reflexivity. }
           rewrite Hs, Htr3, Htr2, Htr, <- !app_assoc. reflexivity.
        -- right. exists (stop_events w2 ++ schedule_events f).
           split; [reflexivity|]. right. right. exists (stop_events w2).
           split; [reflexivity | apply stop_events_only_tracks].
      * destruct (write_status_frame text w1) as (_ & _ & _ & _ & ->). exact Hquiet.
      * apply Hcaught.
      * destruct (status w1); [apply Hcaught | exact Hquiet].
  - exists []. split; [|left; reflexivity].
    unfold exec at 1. rewrite run_flow_submit, (submit_capture_throws _ _ _ _ _ Hr).
    cbn [snd]. rewrite app_nil_r, Hc. reflexivity.
Qed.

(** ** Where the script navigates *)

Lemma stays_here_refl (w : World) : stays_here w w.
Proof. split; auto. Qed.

Lemma stays_here_trans (w1 w2 w3 : World) :
  stays_here w1 w2 -> stays_here w2 w3 -> stays_here w1 w3.
Proof. unfold stays_here. intros [H1 H2] [H3 H4]. split; [congruence | auto]. Qed.

Lemma submit_stays_here (ep : Endpoint) (jpeg : string) (net : FetchOutcome) :
  preserves stays_here (submit ep jpeg net).
Proof.
  assert (Hcap : preserves stays_here (captureImageBase64 jpeg)).
  { intros w. destruct (capture_frame jpeg w) as [c ->]. split; auto. }
  assert (Hfetch : forall endpoint img, preserves stays_here (fetch endpoint img net)).
  { intros endpoint img w. unfold exec, fetch. destruct net; split; auto. }
  assert (Hstop : preserves stays_here stopCamera).
  { intros w. unfold exec. rewrite stopCamera_run; cbn [snd].
    destruct (stopped_frame w) as (_ & _ & Ht & Hl & _).
    split; [exact Hl|]. unfold only_redirects. rewrite Ht. auto. }
  assert (Hsched : forall d, preserves stays_here (schedule_redirect d)).
  { intros [delay|] w; [|apply stays_here_refl].
    split; [reflexivity|]. unfold only_redirects; cbn. intros H.
    apply Forall_app. split; [exact H|]. repeat constructor. }
  unfold submit, on_response, on_error, console_error.
  frame stays_here_refl stays_here_trans; auto; split; auto.
Qed.

(** X13: no operation changes the location, and from a page whose
    pending timers are all redirects to /elections every operation and
    every timer that fires leads to such a page again; a timer that
    fires leaves the location where it was or at /elections.  The
    script navigates nowhere else. *)
Theorem navigates_to_elections_only (w : World) :
  (forall op, location (run op w) = location w) /\
  (only_redirects w ->
   (forall op, only_redirects (run op w)) /\
   (forall i, only_redirects (fire i w) /\
              (location (fire i w) = location w \/ location (fire i w) = "/elections"))).
Proof.
  assert (Hop : forall op, stays_here w (run op w)).
  { intros [gum play| |jpeg|f jpeg net]; cbn [run].
    - unfold exec, startCamera.
      destruct w as [[v|] c s md r h t l tr], gum, play, md, s; split; auto.
    - unfold exec. rewrite stopCamera_run; cbn [snd].
      destruct (stopped_frame w) as (_ & _ & Ht & Hl & _).
      split; [exact Hl|]. unfold only_redirects. rewrite Ht. auto.
    - destruct (capture_frame jpeg w) as [c ->]. split; auto.
    - unfold exec. rewrite run_flow_submit. apply submit_stays_here. }
  split; [intros op; apply Hop|].
  intros Hinv. split; [intros op; apply Hop; exact Hinv|].
  intros i. unfold fire. destruct (timers w !! i) as [[d cb]|] eqn:E; [|auto].
  assert (Hcb : cb = Redirect "/elections").
  { unfold only_redirects in Hinv. rewrite Forall_forall in Hinv.
    apply (Hinv (d, cb)). eapply list_elem_of_lookup_2. exact E. }
  subst cb. cbn. split; [|right; reflexivity].
  unfold only_redirects in *; cbn.
  rewrite Forall_forall in *. intros t Ht. apply Hinv.
  eapply list_elem_of_delete_inv. exact Ht.
Qed.

Lemma navigates_to_elections_only_witness :
  only_redirects (run (OpSubmit Register a_jpeg an_accepted_response) a_live_page) /\
  location (fire 0 (run (OpSubmit Register a_jpeg an_accepted_response) a_live_page))
  = "/elections".
Proof.
  split.
  - apply (proj2 (navigates_to_elections_only a_live_page)). constructor.
  - reflexivity.
Defined.

(** ** More on capturing and retrying *)

Lemma capture_again (jpeg : string) (w : World) :
  captureImageBase64 jpeg (exec (captureImageBase64 jpeg) w)
  = (result (captureImageBase64 jpeg) w, exec (captureImageBase64 jpeg) w).
Proof.
  unfold result, exec, captureImageBase64.
  destruct w as [[v|] [c|] s md r h t l tr]; cbn; try reflexivity.
  destruct ((videoWidth v =? 0)%N || (videoHeight v =? 0)%N) eqn:E; cbn;
    [rewrite E; reflexivity|].
  destruct (context2d c) eqn:Ec; cbn; rewrite E; cbn; reflexivity.
Qed.


(** X15: when the video has a frame but the canvas gives no 2d
    context, [captureImageBase64()] throws after resizing the canvas,
    and since the flows call it outside their [try] block the exception
    leaves the flow: no status text is written, nothing is sent, nothing
    is logged. *)
Theorem capture_failure_escapes_flow (f : Flow) (jpeg : string) (net : FetchOutcome)
    (w : World) (v : Video) (c : Canvas) :
  video w = Some v ->
  canvas w = Some c ->
  videoWidth v <> 0%N ->
  videoHeight v <> 0%N ->
  context2d c = false ->
  run_flow f jpeg net w
  = (Throw (TypeError "Cannot read properties of null (reading 'drawImage')"),
     with_canvas (Some (mkCanvas (videoWidth v) (videoHeight v) false None)) w).
Proof.
  intros Hv Hc Hw Hh Hctx.
  assert (Hcap : captureImageBase64 jpeg w
                 = (Throw (TypeError "Cannot read properties of null (reading 'drawImage')"),
                    with_canvas (Some (mkCanvas (videoWidth v) (videoHeight v) false None))
                                w)).
  { unfold captureImageBase64. rewrite Hv, Hc, Hctx.
    apply N.eqb_neq in Hw, Hh. rewrite Hw, Hh. reflexivity. }
  rewrite run_flow_submit, (submit_capture_throws _ _ _ _
    (TypeError "Cannot read properties of null (reading 'drawImage')"));
    unfold result, exec; rewrite Hcap; reflexivity.
Qed.

Lemma capture_failure_escapes_flow_witness :
  status (exec (run_flow Register a_jpeg an_accepted_response)
               (with_canvas (Some (mkCanvas 300 150 false None)) a_live_page))
  = Some EmptyString.
Proof.
  unfold exec.
  rewrite (capture_failure_escapes_flow Register a_jpeg an_accepted_response
             (with_canvas (Some (mkCanvas 300 150 false None)) a_live_page)
             (mkVideo 640 480 (Some 0) false) (mkCanvas 300 150 false None)
             eq_refl eq_refl); [reflexivity | discriminate | discriminate | reflexivity].
Defined.

(** What an accepted flow leaves behind. *)
Lemma accepted_outcome (f : Flow) (jpeg : string) (w : World) (img : string)
    (st : N) (data : json) :
  result (captureImageBase64 jpeg) w = Normal (Some img) ->
  falsy_image (Some img) = false ->
  accepted st data ->
  let w' := exec (run_flow f jpeg (FetchResolve st (BodyJson data))) w in
  status w' = (fun _ => success_text (endpoint f)) <$> status w /\
  streamRef w' = streamRef w /\
  timers w' = timers w ++ match redirect_delay (endpoint f) with
                          | Some d => [(d, Redirect "/elections")]
                          | None => []
                          end /\
  (forall sid ts, streamRef w = Some sid -> streams w !! sid = Some ts ->
                  streams w' !! sid = Some (map (fun t => mkTrack (label t) Ended) ts)).
Proof.
  intros Hr Hf Hacc w'. subst w'. unfold exec at 1 2 3 4.
  rewrite run_flow_submit, (submit_accepted _ _ _ _ _ _ Hr Hf Hacc); cbn [snd].
  destruct (succeeded_frame (endpoint f) jpeg img w) as (Href & Hstr & Htm & Hst & _).
  set (w1 := succeeded (endpoint f) jpeg img w) in *.
  unfold exec at 2 4 6 8. rewrite stopCamera_run; cbn [snd].
  destruct (stopped_frame w1) as (Href2 & Hst2 & Htm2 & _).
  set (w2 := stopped w1) in *.
  assert (Hsched : forall d,
            status (exec (schedule_redirect d) w2) = status w2 /\
            streamRef (exec (schedule_redirect d) w2) = streamRef w2 /\
            streams (exec (schedule_redirect d) w2) = streams w2 /\
            timers (exec (schedule_redirect d) w2)
            = timers w2 ++ match d with
                           | Some d => [(d, Redirect "/elections")]
                           | None => []
                           end).
  { intros [d|]; cbn; rewrite ?app_nil_r; repeat split. }
  destruct (Hsched (redirect_delay (endpoint f))) as (-> & -> & -> & ->).
  rewrite Hst2, Hst, Href2, Href, Htm2, Htm. repeat split.
  intros sid ts Hs Hl. subst w2.
  rewrite (stopped_exact w1 sid ts) by congruence. cbn.
  apply list_lookup_insert_eq. rewrite Hstr. eapply lookup_lt_Some; eassumption.
Qed.

(** X16: a refused or failed attempt can be retried.  When a flow that
    captured a frame gets a response that is not accepted and is run
    again with an accepted one, the second run captures the frame again,
    shows the success text, ends every track of the held stream and
    schedules the timer of the flow, as a first run would. *)
Theorem retry_after_refusal (f : Flow) (jpeg : string) (w : World) (img : string)
    (net : FetchOutcome) (st : N) (data : json) :
  result (captureImageBase64 jpeg) w = Normal (Some img) ->
  falsy_image (Some img) = false ->
  net_accepted net = false ->
  accepted st data ->
  let w1 := exec (run_flow f jpeg net) w in
  let w2 := exec (run_flow f jpeg (FetchResolve st (BodyJson data))) w1 in
  result (captureImageBase64 jpeg) w1 = Normal (Some img) /\
  status w2 = (fun _ => success_text (endpoint f)) <$> status w /\
  streamRef w2 = streamRef w /\
  timers w2 = timers w ++ match redirect_delay (endpoint f) with
                          | Some d => [(d, Redirect "/elections")]
                          | None => []
                          end /\
  (forall sid ts, streamRef w = Some sid -> streams w !! sid = Some ts ->
                  streams w2 !! sid = Some (map (fun t => mkTrack (label t) Ended) ts)).
Proof.
  intros Hr Hf Hnet Hacc w1 w2.
  assert (Hv : net_verdict (endpoint f) net <> Accepted).
  { destruct net as [st' parsed|e]; [|discriminate]. apply verdict_accepts. exact Hnet. }
  assert (Hw1 : w1 = settle (endpoint f) (net_verdict (endpoint f) net)
                            (sent (endpoint f) jpeg img w)).
  { subst w1. unfold exec. rewrite (run_flow_settles _ _ _ _ _ Hr Hf). reflexivity. }
  destruct (alike_fields _ _ (settle_alike (endpoint f) _
                                (sent (endpoint f) jpeg img w) Hv))
    as (Hvid & Hcan & Href & Hstr & Htm & _).
  rewrite <- Hw1 in Hvid, Hcan, Href, Hstr, Htm.
  destruct (sent_frame (endpoint f) jpeg img w) as (Hr0 & Hs0 & Ht0 & _).
  rewrite Hr0 in Href. rewrite Hs0 in Hstr. rewrite Ht0 in Htm.
  assert (Hst1 : exists text, status w1 = (fun _ => text) <$> status w).
  { rewrite Hw1. unfold settle, caught.
    destruct (net_verdict (endpoint f) net) as [|text|e|e]; [contradiction| | |].
    - eexists. rewrite status_write_status, status_sent. apply fmap_const_twice.
    - eexists. rewrite status_write_status; cbn [status emit].
      rewrite status_sent. apply fmap_const_twice.
    - destruct (status (sent (endpoint f) jpeg img w)) eqn:E.
      + eexists. rewrite status_write_status; cbn [status emit].
        rewrite status_sent. apply fmap_const_twice.
      + eexists. apply status_sent. }
  assert (Hcap : result (captureImageBase64 jpeg) w1 = Normal (Some img)).
  { pose proof (capture_again jpeg w) as Hrep.
    assert (Hsame : forall wa wb, video wa = video wb -> canvas wa = canvas wb ->
              result (captureImageBase64 jpeg) wa = result (captureImageBase64 jpeg) wb).
    { intros wa wb Ha Hb. unfold result, captureImageBase64. rewrite Ha, Hb.
      destruct (video wb), (canvas wb); try reflexivity.
      destruct (_ || _); [reflexivity|]. destruct (context2d _); reflexivity. }
    rewrite (Hsame w1 (exec (captureImageBase64 jpeg) w)).
    - unfold result at 1. rewrite Hrep. exact Hr.
    - rewrite Hvid. unfold sent. destruct (capture_frame jpeg w) as [c ->].
      unfold write_status; cbn. destruct (status w); reflexivity.
    - rewrite Hcan. unfold sent. destruct (capture_frame jpeg w) as [c ->].
      unfold write_status; cbn. destruct (status w); reflexivity. }
  destruct (accepted_outcome f jpeg w1 img st data Hcap Hf Hacc)
    as (Hs2 & Hr2 & Ht2 & Hh2). fold w2 in Hs2, Hr2, Ht2, Hh2.
  split; [exact Hcap|]. destruct Hst1 as [text Hst1].
  rewrite Hs2, Hst1, fmap_const_twice, Hr2, Href, Ht2, Htm. repeat split.
  intros sid ts Hs Hl. apply Hh2; congruence.
Qed.

Lemma retry_after_refusal_witness :
  timers (exec (run_flow Login a_jpeg an_accepted_response)
            (exec (run_flow Login a_jpeg
                     (FetchResolve 401 (BodyJson (JObj [("ok", JBool false)]))))
                  a_live_page))
  = [(1000%N, Redirect "/elections")].
Proof.
  apply (retry_after_refusal Login a_jpeg a_live_page a_jpeg
           (FetchResolve 401 (BodyJson (JObj [("ok", JBool false)])))
           200 (JObj [("ok", JBool true)]) eq_refl eq_refl eq_refl accepted_ok_true).
Defined.
